(** * Smart parking pricing: the notebook's pricing functions, embedded and verified

    Source: [smart_parking_pricing_system.ipynb] (cells 5 to 9).

    Numbers.  The pricing functions are embedded twice.

    Over the reals: a Python float is a [pyfloat], either a number,
    idealised as an exact real (no rounding error, no overflow, no
    infinities), or [NaN], which the notebook itself produces: pandas'
    [Series.map] with a dict sends every unmapped category to NaN.  [NaN]
    propagates through arithmetic, and every comparison with it is false,
    as in IEEE 754; Python's builtin [min] and [max] are modelled by their
    comparison semantics (the first argument is kept unless the second
    compares strictly better).  This model carries the structure of the
    computation: which rows are read, which exceptions are raised, NaN,
    monotonicity, ranges.  Its numbers are those of the floats up to
    rounding error; where a value sits on a rounding tie or two values are
    compared that differ by rounding error only, the floats decide
    otherwise than the reals.

    Over binary64, in module [F64]: the floats as they are, with the
    IEEE 754 operations, Python's [round(x, 2)] and [int / int] bit for bit.
    What is said about the very numbers the functions return is proved
    there.

    Errors.  Python's true division of plain numbers raises
    [ZeroDivisionError] on a zero divisor, [df.loc] raises [KeyError] on
    an absent label, and scikit-learn and pandas raise [ValueError] on an
    infinite entry or an assignment of the wrong length; all are values of
    [exn], threaded through the [result] monad. *)

From Stdlib Require Import Floats.
From Stdlib Require Import Reals Lra Lia ZArith String List Bool Permutation.
Import ListNotations.

Local Open Scope R_scope.

Set Warnings "-inexact-float".

(** ** Exceptions and the result monad *)

Inductive exn : Type :=
| ZeroDivisionError
| KeyError
| ValueError.

Inductive result (A : Type) : Type :=
| Ok (a : A)
| Raise (e : exn).

Arguments Ok {A} a.
Arguments Raise {A} e.

Definition bind {A B : Type} (m : result A) (k : A -> result B) : result B :=
  match m with
  | Ok a => k a
  | Raise e => Raise e
  end.

Notation "x <- m ;; k" := (bind m (fun x => k))
  (at level 61, m at next level, right associativity).

(** A list comprehension whose body may raise: the first exception, in
    iteration order, aborts the whole comprehension. *)
Fixpoint mapM {A B : Type} (f : A -> result B) (l : list A) : result (list B) :=
  match l with
  | [] => Ok []
  | a :: l' => b <- f a ;; bs <- mapM f l' ;; Ok (b :: bs)
  end.

(** ** Python floats *)

Inductive pyfloat : Type :=
| Fin (x : R)
| NaN.

Definition fadd (a b : pyfloat) : pyfloat :=
  match a, b with
  | Fin x, Fin y => Fin (x + y)
  | _, _ => NaN
  end.

Definition fsub (a b : pyfloat) : pyfloat :=
  match a, b with
  | Fin x, Fin y => Fin (x - y)
  | _, _ => NaN
  end.

Definition fmul (a b : pyfloat) : pyfloat :=
  match a, b with
  | Fin x, Fin y => Fin (x * y)
  | _, _ => NaN
  end.

(** Division by a literal: every float division of the pricing functions has
    a non-zero literal divisor ([2], [1.5]) or a non-zero length, so it
    cannot raise. *)
Definition fdivc (a : pyfloat) (c : R) : pyfloat :=
  match a with
  | Fin x => Fin (x / c)
  | NaN => NaN
  end.

Definition Rltb (x y : R) : bool := if Rlt_dec x y then true else false.
Definition Rleb (x y : R) : bool := if Rle_dec x y then true else false.

(** [a < b] and [a > b] on floats: false as soon as one side is NaN. *)
Definition flt (a b : pyfloat) : bool :=
  match a, b with
  | Fin x, Fin y => Rltb x y
  | _, _ => false
  end.

Definition fgt (a b : pyfloat) : bool := flt b a.

(** Python's [max(a, b)] keeps [a] unless [b > a]; [min(a, b)] keeps [a]
    unless [b < a]. *)
Definition pymax (a b : pyfloat) : pyfloat := if fgt b a then b else a.
Definition pymin (a b : pyfloat) : pyfloat := if flt b a then b else a.

(** Python's int [/] int and number [/] number on plain numbers. *)
Definition truediv (a b : Z) : result R :=
  if Z.eqb b 0 then Raise ZeroDivisionError else Ok (IZR a / IZR b).

(** *** [round(x, 2)]

    Python rounds the exact value of the float to the nearest multiple of
    [0.01], ties going to the even multiple.  Here the value is the real
    number the float stands for: a real on a tie, such as 10.025, is rounded
    to the even side, whereas the float nearest to it lies on one side of
    the tie and is rounded to that side ([F64.round2]). *)
Definition round_half_even (x : R) : Z :=
  let n := Int_part x in
  let f := x - IZR n in
  if Rlt_dec f (1 / 2) then n
  else if Rlt_dec (1 / 2) f then (n + 1)%Z
  else if Z.even n then n else (n + 1)%Z.

Definition round2 (x : R) : R := IZR (round_half_even (x * 100)) / 100.

Definition pyround2 (a : pyfloat) : pyfloat :=
  match a with
  | Fin x => Fin (round2 x)
  | NaN => NaN
  end.

(** [a] is a number between [lo] and [hi]; NaN is in no interval. *)
Definition in_range (lo hi : R) (a : pyfloat) : Prop :=
  match a with
  | Fin x => lo <= x <= hi
  | NaN => False
  end.

(** ** Model 1: linear pricing (cell 6)

<<
def linear_pricing_model(occupancy, capacity, base_price=10.0, alpha=5.0):
    occupancy_rate = occupancy / capacity
    return round(base_price + alpha * occupancy_rate, 2)
>> *)
Definition linear_pricing_model (occupancy capacity : Z) (base_price alpha : R)
  : result R :=
  occupancy_rate <- truediv occupancy capacity ;;
  Ok (round2 (base_price + alpha * occupancy_rate)).

Definition default_base_price : R := 10.0.
Definition default_alpha : R := 5.0.

(** ** The data frame

    One record per row of [df], one field per column the pricing cells read
    or write.  The columns of the CSV come first; the others are assigned by
    the notebook's cells, and a field holds whatever the column holds at
    that point of the run.  [NormalizedOccupancyRate] and
    [NormalizedQueueLength] are assigned from the output of scikit-learn's
    [MinMaxScaler]. *)
Record row : Type := mkRow {
  SystemCodeNumber : string;
  Occupancy : Z;
  Capacity : Z;
  QueueLength : Z;
  VehicleType : string;
  TrafficConditionNearby : string;
  IsSpecialDay : pyfloat;
  Latitude : R;
  Longitude : R;
  NormalizedOccupancyRate : pyfloat;
  NormalizedQueueLength : pyfloat;
  VehicleTypeEncoded : pyfloat;
  TrafficConditionEncoded : pyfloat;
  LinearPrice : pyfloat;
  DemandPrice : pyfloat;
  CompetitivePrice : pyfloat
}.

Definition DataFrame : Type := list row.

Definition set_encoded (v t : pyfloat) (r : row) : row :=
  mkRow (SystemCodeNumber r) (Occupancy r) (Capacity r) (QueueLength r)
        (VehicleType r)
        (TrafficConditionNearby r) (IsSpecialDay r) (Latitude r) (Longitude r)
        (NormalizedOccupancyRate r) (NormalizedQueueLength r)
        v t (LinearPrice r) (DemandPrice r) (CompetitivePrice r).

Definition set_LinearPrice (p : pyfloat) (r : row) : row :=
  mkRow (SystemCodeNumber r) (Occupancy r) (Capacity r) (QueueLength r)
        (VehicleType r)
        (TrafficConditionNearby r) (IsSpecialDay r) (Latitude r) (Longitude r)
        (NormalizedOccupancyRate r) (NormalizedQueueLength r)
        (VehicleTypeEncoded r) (TrafficConditionEncoded r)
        p (DemandPrice r) (CompetitivePrice r).

Definition set_DemandPrice (p : pyfloat) (r : row) : row :=
  mkRow (SystemCodeNumber r) (Occupancy r) (Capacity r) (QueueLength r)
        (VehicleType r)
        (TrafficConditionNearby r) (IsSpecialDay r) (Latitude r) (Longitude r)
        (NormalizedOccupancyRate r) (NormalizedQueueLength r)
        (VehicleTypeEncoded r) (TrafficConditionEncoded r)
        (LinearPrice r) p (CompetitivePrice r).

Definition set_CompetitivePrice (p : pyfloat) (r : row) : row :=
  mkRow (SystemCodeNumber r) (Occupancy r) (Capacity r) (QueueLength r)
        (VehicleType r)
        (TrafficConditionNearby r) (IsSpecialDay r) (Latitude r) (Longitude r)
        (NormalizedOccupancyRate r) (NormalizedQueueLength r)
        (VehicleTypeEncoded r) (TrafficConditionEncoded r)
        (LinearPrice r) (DemandPrice r) p.

(** ** Preprocessing (cell 5)

<<
df['VehicleTypeEncoded'] = df['VehicleType'].map({'car': 1.0, 'bike': 0.5, 'truck': 1.5})
df['TrafficConditionEncoded'] = df['TrafficConditionNearby'].map({'low': 0, 'medium': 1, 'high': 2})
>>
    [Series.map] with a dict looks every value up and yields NaN for a value
    that is not a key. *)
Definition vehicle_type_codes : list (string * R) :=
  [("car"%string, 1.0); ("bike"%string, 0.5); ("truck"%string, 1.5)].

Definition traffic_condition_codes : list (string * R) :=
  [("low"%string, 0); ("medium"%string, 1); ("high"%string, 2)].

Fixpoint series_map (d : list (string * R)) (key : string) : pyfloat :=
  match d with
  | [] => NaN
  | (k, v) :: d' => if String.eqb k key then Fin v else series_map d' key
  end.

Definition encode (r : row) : row :=
  set_encoded (series_map vehicle_type_codes (VehicleType r))
              (series_map traffic_condition_codes (TrafficConditionNearby r)) r.

(** ** Model 2: demand-based pricing (cell 7)

<<
def demand_based_price(row, base_price=10.0, lambd=0.5):
    alpha, beta, gamma, delta, epsilon = 0.4, 0.3, 0.1, 0.1, 0.1
    demand = (
        alpha * row['NormalizedOccupancyRate'] +
        beta * row['NormalizedQueueLength'] +
        gamma * row['TrafficConditionEncoded'] / 2 +
        delta * row['VehicleTypeEncoded'] / 1.5 +
        epsilon * row['IsSpecialDay']
    )
    demand = min(max(demand, 0), 1)
    return round(min(max(base_price * (1 + lambd * demand), 5), 20), 2)
>> *)
Definition demand_based_price (r : row) (base_price lambd : R) : pyfloat :=
  let alpha := Fin 0.4 in
  let beta := Fin 0.3 in
  let gamma := Fin 0.1 in
  let delta := Fin 0.1 in
  let epsilon := Fin 0.1 in
  let demand :=
    fadd (fadd (fadd (fadd
      (fmul alpha (NormalizedOccupancyRate r))
      (fmul beta (NormalizedQueueLength r)))
      (fdivc (fmul gamma (TrafficConditionEncoded r)) 2))
      (fdivc (fmul delta (VehicleTypeEncoded r)) 1.5))
      (fmul epsilon (IsSpecialDay r)) in
  let demand := pymin (pymax demand (Fin 0)) (Fin 1) in
  pyround2
    (pymin (pymax (fmul (Fin base_price) (fadd (Fin 1) (fmul (Fin lambd) demand)))
                  (Fin 5))
           (Fin 20)).

Definition default_lambd : R := 0.5.

(** [df['DemandPrice'] = df.apply(demand_based_price, axis=1)] *)
Definition apply_demand_based_price (df : DataFrame) : DataFrame :=
  map (fun r => set_DemandPrice
                  (demand_based_price r default_base_price default_lambd) r) df.

(** *** The demand formula in the specification's words

    The demand score is the weighted sum of the five features, the traffic
    code divided by 2 and the vehicle code by 1.5, clamped to [0, 1]; the
    price is [base_price * (1 + lambda * demand)], clamped to [5, 20] and
    rounded to two decimals. *)
Definition clamp (lo hi : R) (a : pyfloat) : pyfloat :=
  pymin (pymax a (Fin lo)) (Fin hi).

Definition weighted_sum (r : row) : pyfloat :=
  fadd (fadd (fadd (fadd
    (fmul (Fin 0.4) (NormalizedOccupancyRate r))
    (fmul (Fin 0.3) (NormalizedQueueLength r)))
    (fmul (Fin 0.1) (fdivc (TrafficConditionEncoded r) 2)))
    (fmul (Fin 0.1) (fdivc (VehicleTypeEncoded r) 1.5)))
    (fmul (Fin 0.1) (IsSpecialDay r)).

Definition demand_score (r : row) : pyfloat := clamp 0 1 (weighted_sum r).

Definition demand_price_spec (r : row) (base_price lambd : R) : pyfloat :=
  pyround2
    (clamp 5 20 (fmul (Fin base_price)
                      (fadd (Fin 1) (fmul (Fin lambd) (demand_score r))))).

(** A row is numeric when none of its five demand features is NaN. *)
Definition is_number (a : pyfloat) : Prop :=
  match a with
  | Fin _ => True
  | NaN => False
  end.

Definition numeric_features (r : row) : Prop :=
  is_number (NormalizedOccupancyRate r) /\
  is_number (NormalizedQueueLength r) /\
  is_number (TrafficConditionEncoded r) /\
  is_number (VehicleTypeEncoded r) /\
  is_number (IsSpecialDay r).

(** The scenario of the specification: half-full lot, short queue, medium
    traffic, cars, ordinary day. *)
Definition scenario_reading : row :=
  mkRow "A" 50 100 2 "car" "medium" (Fin 0) 0 0 (Fin 0.5) (Fin 0.2)
        NaN NaN NaN NaN NaN.

(** ** Model 3: competitive pricing (cell 8)

<<
def haversine(lat1, lon1, lat2, lon2):
    R = 6371
    phi1, phi2 = np.radians(lat1), np.radians(lat2)
    dphi = np.radians(lat2 - lat1)
    dlambda = np.radians(lon2 - lon1)
    a = np.sin(dphi / 2)**2 + np.cos(phi1) * np.cos(phi2) * np.sin(dlambda / 2)**2
    return R * 2 * np.arcsin(np.sqrt(a))
>> *)
Definition radians (deg : R) : R := deg * PI / 180.

Definition haversine (lat1 lon1 lat2 lon2 : R) : R :=
  let R_earth := 6371 in
  let phi1 := radians lat1 in
  let phi2 := radians lat2 in
  let dphi := radians (lat2 - lat1) in
  let dlambda := radians (lon2 - lon1) in
  let a := sin (dphi / 2) ^ 2 + cos phi1 * cos phi2 * sin (dlambda / 2) ^ 2 in
  R_earth * 2 * asin (sqrt a).

Arguments haversine : simpl never.

(** [np.mean] of a list of floats, as the exact mean of the reals; of the
    empty list it is NaN. *)
Definition np_mean (l : list pyfloat) : pyfloat :=
  match l with
  | [] => NaN
  | _ => fdivc (fold_left fadd l (Fin 0)) (INR (length l))
  end.

(** [df.iterrows()]: the rows with their labels, the default [RangeIndex]. *)
Definition iterrows (df : DataFrame) : list (nat * row) :=
  combine (seq 0 (length df)) df.

(** [df.loc[index, ...]] *)
Definition loc (df : DataFrame) (index : nat) : result row :=
  match nth_error df index with
  | Some r => Ok r
  | None => Raise KeyError
  end.

(** The neighbour loop of [competitive_price], from the rows still to visit
    and the list built so far:
<<
    for i, row in df.iterrows():
        if i == index: continue
        dist = haversine(lat1, lon1, row['Latitude'], row['Longitude'])
        if dist <= radius_km:
            neighbors.append((row['DemandPrice'], row['Occupancy'] / row['Capacity']))
>> *)
Fixpoint neighbors_loop (lat1 lon1 : R) (index : nat) (radius_km : R)
    (rows : list (nat * row)) (neighbors : list (pyfloat * pyfloat))
  : result (list (pyfloat * pyfloat)) :=
  match rows with
  | [] => Ok neighbors
  | (i, r) :: rest =>
      if Nat.eqb i index then
        neighbors_loop lat1 lon1 index radius_km rest neighbors
      else
        let dist := haversine lat1 lon1 (Latitude r) (Longitude r) in
        if Rleb dist radius_km then
          occ <- truediv (Occupancy r) (Capacity r) ;;
          neighbors_loop lat1 lon1 index radius_km rest
                         (neighbors ++ [(DemandPrice r, Fin occ)])
        else
          neighbors_loop lat1 lon1 index radius_km rest neighbors
  end.

(**
<<
def competitive_price(index, df, radius_km=1.0):
    lat1, lon1 = df.loc[index, ['Latitude', 'Longitude']]
    own_price = df.loc[index, 'DemandPrice']
    neighbors = []
    for i, row in df.iterrows(): ...
    if not neighbors: return own_price
    avg_price = np.mean([p for p, _ in neighbors])
    avg_occ = np.mean([o for _, o in neighbors])
    if avg_occ > 0.9 and avg_price > own_price:
        return min(own_price + 1, 20)
    elif avg_price < own_price:
        return max(own_price - 1, 5)
    return own_price
>> *)
Definition competitive_price (index : nat) (df : DataFrame) (radius_km : R)
  : result pyfloat :=
  own <- loc df index ;;
  let lat1 := Latitude own in
  let lon1 := Longitude own in
  let own_price := DemandPrice own in
  neighbors <- neighbors_loop lat1 lon1 index radius_km (iterrows df) [] ;;
  match neighbors with
  | [] => Ok own_price
  | _ :: _ =>
      let avg_price := np_mean (map fst neighbors) in
      let avg_occ := np_mean (map snd neighbors) in
      if fgt avg_occ (Fin 0.9) && fgt avg_price own_price then
        Ok (pymin (fadd own_price (Fin 1)) (Fin 20))
      else if flt avg_price own_price then
        Ok (pymax (fsub own_price (Fin 1)) (Fin 5))
      else
        Ok own_price
  end.

Definition default_radius_km : R := 1.0.

(** [[competitive_price(i, df) for i in range(len(df))]]: the whole list is
    built from [df] as the demand pass left it. *)
Definition competitive_prices (df : DataFrame) : result (list pyfloat) :=
  mapM (fun i => competitive_price i df default_radius_km) (seq 0 (length df)).

(** [df['CompetitivePrice'] = prices] *)
Definition assign_CompetitivePrice (df : DataFrame) (prices : list pyfloat)
  : DataFrame :=
  map (fun rp => set_CompetitivePrice (snd rp) (fst rp)) (combine df prices).

(** ** The two-phase computation, in the specification's words

    Phase one freezes, for every lot, its location, demand price and
    occupancy rate.  Phase two prices every lot from the frozen snapshot:
    the neighbours are the other lots within the radius, and the decision
    rule is steps 2 to 6 of the Competitive policy. *)
Record lot_snapshot : Type := mkSnapshot {
  snap_latitude : R;
  snap_longitude : R;
  snap_demand_price : pyfloat;
  snap_occupancy_rate : pyfloat
}.

Definition snapshot_of (r : row) : lot_snapshot :=
  mkSnapshot (Latitude r) (Longitude r) (DemandPrice r)
             (Fin (IZR (Occupancy r) / IZR (Capacity r))).

Definition freeze (df : DataFrame) : list lot_snapshot := map snapshot_of df.

Definition within (radius_km : R) (a b : lot_snapshot) : bool :=
  Rleb (haversine (snap_latitude a) (snap_longitude a)
                  (snap_latitude b) (snap_longitude b)) radius_km.

(** GeoIndex query: the other lots within [radius_km] of lot [index]. *)
Definition query (index : nat) (own : lot_snapshot) (radius_km : R)
    (snap : list lot_snapshot) : list lot_snapshot :=
  map snd
      (filter (fun js => negb (Nat.eqb (fst js) index) && within radius_km own (snd js))
              (combine (seq 0 (length snap)) snap)).

Definition competitive_policy (own_price : pyfloat) (neighbors : list lot_snapshot)
  : pyfloat :=
  match neighbors with
  | [] => own_price
  | _ :: _ =>
      let avg_price := np_mean (map snap_demand_price neighbors) in
      let avg_occ := np_mean (map snap_occupancy_rate neighbors) in
      if fgt avg_occ (Fin 0.9) && fgt avg_price own_price then
        pymin (fadd own_price (Fin 1)) (Fin 20)
      else if flt avg_price own_price then
        pymax (fsub own_price (Fin 1)) (Fin 5)
      else own_price
  end.

Definition two_phase (radius_km : R) (df : DataFrame) : list pyfloat :=
  let snap := freeze df in
  map (fun js => competitive_policy (snap_demand_price (snd js))
                                    (query (fst js) (snd js) radius_km snap))
      (combine (seq 0 (length snap)) snap).

(** ** The row-by-row computation over a shared mutable table

    The lots are visited in some order; each lot's competitive price is
    computed from the table as it stands and written into the table's
    [CompetitivePrice] column at once, before the next lot is visited. *)
Fixpoint set_at {A : Type} (i : nat) (f : A -> A) (l : list A) : list A :=
  match l, i with
  | [], _ => []
  | a :: l', O => f a :: l'
  | a :: l', S i' => a :: set_at i' f l'
  end.

Fixpoint row_by_row (radius_km : R) (order : list nat) (df : DataFrame)
  : result DataFrame :=
  match order with
  | [] => Ok df
  | i :: rest =>
      p <- competitive_price i df radius_km ;;
      row_by_row radius_km rest (set_at i (set_CompetitivePrice p) df)
  end.

(** The row with its [CompetitivePrice] cell blanked: two tables with the
    same blanked rows differ in that column only. *)
Definition blank_CompetitivePrice (r : row) : row := set_CompetitivePrice NaN r.

(** ** The notebook, cell after cell

    Cell 5 encodes the categories, cell 6 assigns [LinearPrice], cell 7
    [DemandPrice], cell 8 [CompetitivePrice]; an exception in a cell stops
    the run.  No cell drops a row.  [notebook] is the run on a table whose
    two normalized columns are already there; [run_all_cells], below, is
    the run from the columns of the data set, scaler included. *)
Definition apply_linear_pricing_model (df : DataFrame) : result DataFrame :=
  mapM (fun r =>
          p <- linear_pricing_model (Occupancy r) (Capacity r)
                                    default_base_price default_alpha ;;
          Ok (set_LinearPrice (Fin p) r)) df.

Definition notebook (df : DataFrame) : result DataFrame :=
  let df := map encode df in
  df <- apply_linear_pricing_model df ;;
  let df := apply_demand_based_price df in
  prices <- competitive_prices df ;;
  Ok (assign_CompetitivePrice df prices).

(** What cells 5 to 7 make of one reading, from that reading alone. *)
Definition priced (r : row) : row :=
  let e := encode r in
  let l := set_LinearPrice
             (Fin (round2 (default_base_price
                           + default_alpha
                             * (IZR (Occupancy r) / IZR (Capacity r))))) e in
  set_DemandPrice (demand_based_price l default_base_price default_lambd) l.

(** A reading is malformed, in the specification's sense, when its capacity
    is not positive or its vehicle type or traffic level is not one of the
    recognized values. *)
Definition recognized (d : list (string * R)) (key : string) : bool :=
  existsb (fun kv => String.eqb (fst kv) key) d.


(** *** The scaler (cell 5, after the category maps)

<<
df['OccupancyRate'] = df['Occupancy'] / df['Capacity']
scaler = MinMaxScaler()
df[['NormalizedOccupancyRate', 'NormalizedQueueLength']] = scaler.fit_transform(
    df[['OccupancyRate', 'QueueLength']]
)
>>
    The division is pandas' division of two columns, which never raises: an
    entry of capacity 0 is an infinity, or NaN when the occupancy is 0 too.
    [MinMaxScaler] is scikit-learn's; what the run needs of it is a
    function from the occupancy, capacity and queue length of all the rows
    to the two normalized columns, which may raise: the parameter
    [fit_transform] of [run_all_cells].  Assigning the two columns raises
    [ValueError] unless there is one pair per row. *)
Definition scaler : Type :=
  list (Z * Z * Z) -> result (list (pyfloat * pyfloat)).

Definition scaler_input (r : row) : Z * Z * Z :=
  (Occupancy r, Capacity r, QueueLength r).

Definition set_normalized (no nq : pyfloat) (r : row) : row :=
  mkRow (SystemCodeNumber r) (Occupancy r) (Capacity r) (QueueLength r)
        (VehicleType r)
        (TrafficConditionNearby r) (IsSpecialDay r) (Latitude r) (Longitude r)
        no nq
        (VehicleTypeEncoded r) (TrafficConditionEncoded r)
        (LinearPrice r) (DemandPrice r) (CompetitivePrice r).

Definition assign_normalized (df : DataFrame) (cols : list (pyfloat * pyfloat))
  : result DataFrame :=
  if Nat.eqb (List.length cols) (List.length df) then
    Ok (map (fun rc => set_normalized (fst (snd rc)) (snd (snd rc)) (fst rc))
            (combine df cols))
  else Raise ValueError.

(** Cells 5 to 8, in the order of the source. *)
Definition run_all_cells (fit_transform : scaler) (df : DataFrame)
  : result DataFrame :=
  let df := map encode df in
  cols <- fit_transform (map scaler_input df) ;;
  df <- assign_normalized df cols ;;
  df <- apply_linear_pricing_model df ;;
  let df := apply_demand_based_price df in
  prices <- competitive_prices df ;;
  Ok (assign_CompetitivePrice df prices).

(** [MinMaxScaler] as scikit-learn documents it, on exact values: a column
    is mapped to [(x - min) / (max - min)], a constant column to 0; NaN
    entries are left out of the minimum and maximum and stay NaN; an
    infinite entry, here the occupancy rate of a row of capacity 0 and
    occupancy not 0, is refused with [ValueError], and so is a table
    without rows. *)
Definition occupancy_rate (ocq : Z * Z * Z) : result pyfloat :=
  let '(occupancy, capacity, _) := ocq in
  if Z.eqb capacity 0 then
    if Z.eqb occupancy 0 then Ok NaN else Raise ValueError
  else Ok (Fin (IZR occupancy / IZR capacity)).

Definition numbers (col : list pyfloat) : list R :=
  flat_map (fun a => match a with Fin x => [x] | NaN => [] end) col.

Definition min_max_scale (col : list pyfloat) : list pyfloat :=
  match numbers col with
  | [] => col
  | x :: xs =>
      let data_min := fold_left Rmin xs x in
      let data_max := fold_left Rmax xs x in
      let data_range := data_max - data_min in
      let scale := if Req_dec_T data_range 0 then 1 else data_range in
      map (fun a => fdivc (fsub a (Fin data_min)) scale) col
  end.

Definition min_max_scaler : scaler :=
  fun rows =>
    match rows with
    | [] => Raise ValueError
    | _ :: _ =>
        rates <- mapM occupancy_rate rows ;;
        let queues := map (fun ocq => Fin (IZR (snd ocq))) rows in
        Ok (combine (min_max_scale rates) (min_max_scale queues))
    end.


(** A batch of five lots along a meridian; lot Y reports the vehicle type
    ["cycle"]. *)
Definition reading_at (id : string) (lat : R) (vehicle : string) : row :=
  mkRow id 50 100 2 vehicle "medium" (Fin 0) lat 0 (Fin 0.5) (Fin 0.2)
        NaN NaN NaN NaN NaN.

Definition batch_of_five : DataFrame :=
  [reading_at "V" 0 "car"; reading_at "W" 1 "bike"; reading_at "Y" 2 "cycle";
   reading_at "Z" 3 "truck"; reading_at "X" 4 "car"].






(** Every reading has a usable capacity. *)
Definition capacities_positive (df : DataFrame) : Prop :=
  Forall (fun r => (0 < Capacity r)%Z) df.

(** The loop's test, and the pair it appends for a selected row. *)
Definition selected (lat1 lon1 : R) (index : nat) (radius_km : R)
    (ir : nat * row) : bool :=
  negb (Nat.eqb (fst ir) index)
  && Rleb (haversine lat1 lon1 (Latitude (snd ir)) (Longitude (snd ir))) radius_km.

Definition neighbor_entry (r : row) : pyfloat * pyfloat :=
  (DemandPrice r, Fin (IZR (Occupancy r) / IZR (Capacity r))).

(** The scenarios of the specification for the competitive policy: lot X
    with demand price 12, and a lot 0.001 degree of latitude away, 95% full,
    with demand price [p]; and a lot one degree away. *)
Definition lot_X : row :=
  mkRow "X" 50 100 2 "car" "medium" (Fin 0) 0 0 (Fin 0.5) (Fin 0.2)
        (Fin 1) (Fin 1) NaN (Fin 12) NaN.

Definition lot_near (p : R) : row :=
  mkRow "N" 95 100 2 "car" "medium" (Fin 0) 0.001 0 (Fin 0.5) (Fin 0.2)
        (Fin 1) (Fin 1) NaN (Fin p) NaN.

Definition lot_far : row :=
  mkRow "F" 95 100 2 "car" "medium" (Fin 0) 1 0 (Fin 0.5) (Fin 0.2)
        (Fin 1) (Fin 1) NaN (Fin 15) NaN.

(** Readings whose category is not a key of the encoding dict: vehicle type
    ["cycle"], traffic condition ["average"]. *)
Definition cycle_reading : row :=
  mkRow "B" 50 100 2 "cycle" "medium" (Fin 0) 0 0 (Fin 0.5) (Fin 0.2)
        NaN NaN NaN NaN NaN.

Definition average_traffic_reading : row :=
  mkRow "C" 50 100 2 "car" "average" (Fin 0) 0 0 (Fin 0.5) (Fin 0.2)
        NaN NaN NaN NaN NaN.

(** The competitive price [c] is a number within 1.0 of the demand price
    [p], a number too. *)
Definition adjustment_within_one (c p : pyfloat) : Prop :=
  match c, p with
  | Fin q, Fin x => Rabs (q - x) <= 1
  | _, _ => False
  end.

(** ** The rows the chart is drawn from (cell 9)

<<
lot_id = df['SystemCodeNumber'].unique()[0]
lot_data = df[df['SystemCodeNumber'] == lot_id].sort_values(by='Timestamp')
>>
    [unique] lists the values of a column in order of first appearance; its
    item 0 is absent for an empty column ([None] stands for the
    [IndexError]).  [lot_rows] is the boolean-mask selection; the sort by
    timestamp that follows only reorders those rows and is not modelled. *)
Fixpoint unique (l : list string) : list string :=
  match l with
  | [] => []
  | x :: l' => x :: filter (fun y => negb (String.eqb x y)) (unique l')
  end.

Definition first_lot_id (df : DataFrame) : option string :=
  hd_error (unique (map SystemCodeNumber df)).

Definition lot_rows (lot_id : string) (df : DataFrame) : DataFrame :=
  filter (fun r => String.eqb (SystemCodeNumber r) lot_id) df.

(** ** Vocabulary of the further properties *)

(** Both floats are numbers and the first is at most the second. *)
Definition fle_num (a b : pyfloat) : Prop :=
  match a, b with
  | Fin x, Fin y => x <= y
  | _, _ => False
  end.

(** Feature by feature, row [r] asks for no more than row [r']. *)
Definition features_le (r r' : row) : Prop :=
  fle_num (NormalizedOccupancyRate r) (NormalizedOccupancyRate r')
  /\ fle_num (NormalizedQueueLength r) (NormalizedQueueLength r')
  /\ fle_num (TrafficConditionEncoded r) (TrafficConditionEncoded r')
  /\ fle_num (VehicleTypeEncoded r) (VehicleTypeEncoded r')
  /\ fle_num (IsSpecialDay r) (IsSpecialDay r').

(** A reading as the preprocessing expects it: scaled features in [0, 1],
    categories that are keys of the encoding dicts, a 0/1 special-day flag. *)
Definition expected_reading (r : row) : Prop :=
  in_range 0 1 (NormalizedOccupancyRate r)
  /\ in_range 0 1 (NormalizedQueueLength r)
  /\ recognized vehicle_type_codes (VehicleType r) = true
  /\ recognized traffic_condition_codes (TrafficConditionNearby r) = true
  /\ (IsSpecialDay r = Fin 0 \/ IsSpecialDay r = Fin 1).

(** The columns of a row that come from the data set. *)
Definition dataset_columns (r : row)
  : string * Z * Z * Z * string * string * pyfloat * R * R :=
  (SystemCodeNumber r, Occupancy r, Capacity r, QueueLength r, VehicleType r,
   TrafficConditionNearby r, IsSpecialDay r, Latitude r, Longitude r).

(** The argument [a] of [arcsin(sqrt(a))] in [haversine]. *)
Definition haversine_a (lat1 lon1 lat2 lon2 : R) : R :=
  sin (radians (lat2 - lat1) / 2) ^ 2
  + cos (radians lat1) * cos (radians lat2) * sin (radians (lon2 - lon1) / 2) ^ 2.

(** Row [r], with label [j], is another row than [index] and lies within
    [radius_km] of row [own]. *)
Definition is_neighbor (own : row) (index : nat) (radius_km : R)
    (j : nat) (r : row) : Prop :=
  j <> index
  /\ haversine (Latitude own) (Longitude own) (Latitude r) (Longitude r)
     <= radius_km.

(** ** The pricing functions over IEEE 754 binary64

    The same three functions once more, now with Python's floats as they
    are: [float] is the binary64 type, [+], [-], [*], [/], [sqrt] and the
    comparisons are the IEEE 754 operations (round to nearest, ties to
    even), NaN and the infinities included.  The results of this model are
    the floats the notebook prints, bit for bit; the model over the reals
    above is what they approximate.

    What is not Python's own arithmetic is an interface: numpy's [sin],
    [cos], [arcsin], scalar power and [mean] are the fields of [numpy], and
    a theorem states what it needs from them. *)
Module F64.

Local Open Scope float_scope.

(** *** [int / int]

    Python divides two ints exactly and rounds the quotient once, to the
    nearest float.  The columns [Occupancy] and [Capacity] are int64, far
    from the range where that quotient overflows. *)
Definition Z2SF (z : Z) : spec_float :=
  match z with
  | Z0 => S754_zero false
  | Zpos p => S754_finite false p 0
  | Zneg p => S754_finite true p 0
  end.

Definition div_Z (a b : Z) : float :=
  SF2Prim (SFdiv prec emax (Z2SF a) (Z2SF b)).

Definition truediv (a b : Z) : result float :=
  if Z.eqb b 0 then Raise ZeroDivisionError else Ok (div_Z a b).

(** *** [round(x, 2)]

    Python converts the float to the decimal with two fractional digits
    nearest to its exact value, a tie going to the even last digit, and
    reads that decimal back as the nearest float.  The exact value of a
    finite float is [m * 2^e]: the decimal is [n / 100] with [n] the
    integer nearest to [100 * m * 2^e].  Zeros, infinities and NaN round to
    themselves. *)
Definition round_half_even_div (q d : Z) : Z :=
  let n := (q / d)%Z in
  let r := (q mod d)%Z in
  match (2 * r ?= d)%Z with
  | Lt => n
  | Gt => (n + 1)%Z
  | Eq => if Z.even n then n else (n + 1)%Z
  end.

Definition hundredths (m : positive) (e : Z) : Z :=
  match e with
  | Zneg k => round_half_even_div (Zpos m * 100) (Z.pow_pos 2 k)
  | _ => (Zpos m * 100 * 2 ^ e)%Z
  end.

Definition round2 (x : float) : float :=
  match Prim2SF x with
  | S754_finite s m e =>
      match hundredths m e with
      | Z0 => if s then (-0) else 0
      | n => div_Z (if s then (- n)%Z else n) 100
      end
  | _ => x
  end.

(** Python's [max(a, b)] keeps [a] unless [b > a]; [min(a, b)] keeps [a]
    unless [b < a]. *)
Definition pymax (a b : float) : float := if a <? b then b else a.
Definition pymin (a b : float) : float := if b <? a then b else a.

(** *** Model 1: linear pricing (cell 6) *)
Definition linear_pricing_model (occupancy capacity : Z)
    (base_price alpha : float) : result float :=
  occupancy_rate <- truediv occupancy capacity ;;
  Ok (round2 (base_price + alpha * occupancy_rate)).

Definition default_base_price : float := 10.0.
Definition default_alpha : float := 5.0.

(** *** The rows

    The columns the pricing functions read.  The int columns
    [TrafficConditionEncoded] and [IsSpecialDay] enter float products only,
    where Python converts them exactly. *)
Record row : Type := mkRow {
  Occupancy : Z;
  Capacity : Z;
  IsSpecialDay : float;
  Latitude : float;
  Longitude : float;
  NormalizedOccupancyRate : float;
  NormalizedQueueLength : float;
  VehicleTypeEncoded : float;
  TrafficConditionEncoded : float;
  DemandPrice : float
}.

(** *** Model 2: demand-based pricing (cell 7)

    [a * b / c] is [(a * b) / c] and the five terms are added left to
    right, as Python parses the expression. *)
Definition demand_based_price (r : row) (base_price lambd : float) : float :=
  let alpha := 0.4 in
  let beta := 0.3 in
  let gamma := 0.1 in
  let delta := 0.1 in
  let epsilon := 0.1 in
  let demand :=
    alpha * NormalizedOccupancyRate r
    + beta * NormalizedQueueLength r
    + gamma * TrafficConditionEncoded r / 2
    + delta * VehicleTypeEncoded r / 1.5
    + epsilon * IsSpecialDay r in
  let demand := pymin (pymax demand 0) 1 in
  round2 (pymin (pymax (base_price * (1 + lambd * demand)) 5) 20).

Definition default_lambd : float := 0.5.

(** *** Model 3: competitive pricing (cell 8) *)

(** The numpy functions the cell calls on floats. *)
Record numpy : Type := mkNumpy {
  np_sin : float -> float;
  np_cos : float -> float;
  np_arcsin : float -> float;
  np_power : float -> float -> float;
  np_mean : list float -> float
}.

(** [np.radians(x)] is [x * (pi / 180)]. *)
Definition np_pi : float := 3.141592653589793.
Definition radians (deg : float) : float := deg * (np_pi / 180).

Definition haversine (np : numpy) (lat1 lon1 lat2 lon2 : float) : float :=
  let R_earth := 6371 in
  let phi1 := radians lat1 in
  let phi2 := radians lat2 in
  let dphi := radians (lat2 - lat1) in
  let dlambda := radians (lon2 - lon1) in
  let a := np_power np (np_sin np (dphi / 2)) 2
           + np_cos np phi1 * np_cos np phi2
             * np_power np (np_sin np (dlambda / 2)) 2 in
  R_earth * 2 * np_arcsin np (PrimFloat.sqrt a).

Definition iterrows (df : list row) : list (nat * row) :=
  combine (seq 0 (List.length df)) df.

Definition loc (df : list row) (index : nat) : result row :=
  match nth_error df index with
  | Some r => Ok r
  | None => Raise KeyError
  end.

Fixpoint neighbors_loop (np : numpy) (lat1 lon1 : float) (index : nat)
    (radius_km : float) (rows : list (nat * row))
    (neighbors : list (float * float)) : result (list (float * float)) :=
  match rows with
  | [] => Ok neighbors
  | (i, r) :: rest =>
      if Nat.eqb i index then
        neighbors_loop np lat1 lon1 index radius_km rest neighbors
      else
        let dist := haversine np lat1 lon1 (Latitude r) (Longitude r) in
        if dist <=? radius_km then
          occ <- truediv (Occupancy r) (Capacity r) ;;
          neighbors_loop np lat1 lon1 index radius_km rest
                         (neighbors ++ [(DemandPrice r, occ)])
        else
          neighbors_loop np lat1 lon1 index radius_km rest neighbors
  end.

Definition competitive_price (np : numpy) (index : nat) (df : list row)
    (radius_km : float) : result float :=
  own <- loc df index ;;
  let lat1 := Latitude own in
  let lon1 := Longitude own in
  let own_price := DemandPrice own in
  neighbors <- neighbors_loop np lat1 lon1 index radius_km (iterrows df) [] ;;
  match neighbors with
  | [] => Ok own_price
  | _ :: _ =>
      let avg_price := np_mean np (map fst neighbors) in
      let avg_occ := np_mean np (map snd neighbors) in
      if (0.9 <? avg_occ) && (own_price <? avg_price) then
        Ok (pymin (own_price + 1) 20)
      else if avg_price <? own_price then
        Ok (pymax (own_price - 1) 5)
      else
        Ok own_price
  end.

Definition default_radius_km : float := 1.0.

(** *** The specification's words, over binary64 *)

(** [x] clamped to the interval from [lo] to [hi]. *)
Definition clamp (lo hi x : float) : float :=
  if x <? lo then lo else if hi <? x then hi else x.

(** The weighted sum of the five features. *)
Definition weighted_sum (r : row) : float :=
  0.4 * NormalizedOccupancyRate r
  + 0.3 * NormalizedQueueLength r
  + 0.1 * TrafficConditionEncoded r / 2
  + 0.1 * VehicleTypeEncoded r / 1.5
  + 0.1 * IsSpecialDay r.

Definition demand_score (r : row) : float := clamp 0 1 (weighted_sum r).

(** [n / 100] is the decimal with two fractional digits nearest to the
    exact value [(-1)^s * m * 2^e], a tie going to the even [n]. *)
Definition nearest_hundredth (s : bool) (m : positive) (e : Z) (n : Z) : Prop :=
  let v := ((if s then -1 else 1) * Zpos m * 100)%Z in
  match e with
  | Zneg k =>
      let d := Z.pow_pos 2 k in
      (2 * Z.abs (v - n * d) <= d)%Z
      /\ ((2 * Z.abs (v - n * d) = d)%Z -> Z.even n = true)
  | _ => n = (v * 2 ^ e)%Z
  end.

(** The other rows within the radius, and what the loop records of one. *)
Definition selected (np : numpy) (lat1 lon1 : float) (index : nat)
    (radius_km : float) (ir : nat * row) : bool :=
  negb (Nat.eqb (fst ir) index)
  && (haversine np lat1 lon1 (Latitude (snd ir)) (Longitude (snd ir))
      <=? radius_km).

Definition neighbor_entry (r : row) : float * float :=
  (DemandPrice r, div_Z (Occupancy r) (Capacity r)).

(** Steps 2 to 6 of the Competitive policy, from the two means. *)
Inductive adjustment : Type :=
| Keep
| Raise_by_one
| Lower_by_one.

Definition decision (own_price avg_price avg_occ : float) : adjustment :=
  if (0.9 <? avg_occ) && (own_price <? avg_price) then Raise_by_one
  else if avg_price <? own_price then Lower_by_one
  else Keep.

(** [own_price + 1], or 20 if that exceeds 20; [own_price - 1], or 5 if that
    is below 5. *)
Definition adjusted (own_price : float) (a : adjustment) : float :=
  match a with
  | Keep => own_price
  | Raise_by_one => if 20 <? own_price + 1 then 20 else own_price + 1
  | Lower_by_one => if own_price - 1 <? 5 then 5 else own_price - 1
  end.


Definition competitive_policy (np : numpy) (own_price : float)
    (neighbors : list (float * float)) : float :=
  match neighbors with
  | [] => own_price
  | _ :: _ =>
      adjusted own_price
               (decision own_price (np_mean np (map fst neighbors))
                                   (np_mean np (map snd neighbors)))
  end.

(** *** Readings and tables of the scenarios *)

(** Half-full lot, short queue, medium traffic, cars, ordinary day. *)
Definition scenario_reading : row :=
  mkRow 50 100 0 0 0 0.5 0.2 1.0 1 0.






(** The values of the numpy functions at the arguments [haversine] passes
    them between the points (57.7, 0) and (-57.6999999, 180), in both
    directions, as the C library computes them. *)
Definition near_antipodes (np : numpy) : Prop :=
  np_sin np (-1.0070549775280637) = -0.8452618327555459
  /\ np_sin np 1.0070549775280637 = 0.8452618327555459
  /\ np_sin np 1.5707963267948966 = 1
  /\ np_sin np (-1.5707963267948966) = -1
  /\ np_cos np 1.007054978400728 = 0.5343523493898265
  /\ np_cos np (-1.007054976655399) = 0.5343523508650866
  /\ np_power np (-0.8452618327555459) 2 = 0.7144675659132644
  /\ np_power np 0.8452618327555459 2 = 0.7144675659132644
  /\ np_power np 1 2 = 1
  /\ np_power np (-1) 2 = 1
  /\ np_arcsin np 1.0000000000000002 = nan.

(** A stand-in for numpy with exactly those values at those arguments. *)
Definition table_numpy : numpy :=
  mkNumpy (fun x => if x =? -1.0070549775280637 then -0.8452618327555459
                    else if x =? 1.0070549775280637 then 0.8452618327555459
                    else if x =? 1.5707963267948966 then 1
                    else if x =? -1.5707963267948966 then -1
                    else x)
          (fun x => if x =? 1.007054978400728 then 0.5343523493898265
                    else if x =? -1.007054976655399 then 0.5343523508650866
                    else 1)
          (fun x => if 1 <? x then nan else x)
          (fun x _ => x * x)
          (fun _ => nan).


End F64.

(** ** Facts about rounding *)

Lemma Int_part_IZR (z : Z) : Int_part (IZR z) = z.
Proof.
  symmetry. apply Int_part_spec. split; lra.
Qed.

Lemma round_half_even_IZR (z : Z) : round_half_even (IZR z) = z.
Proof.
  unfold round_half_even. rewrite Int_part_IZR.
  destruct (Rlt_dec (IZR z - IZR z) (1 / 2)) as [_ | H]; [reflexivity | lra].
Qed.

Lemma Int_part_bounds (x : R) : IZR (Int_part x) <= x < IZR (Int_part x) + 1.
Proof.
  destruct (base_Int_part x) as [H1 H2]. lra.
Qed.

Lemma round_half_even_between (a b : Z) (x : R) :
  IZR a <= x <= IZR b -> (a <= round_half_even x <= b)%Z.
Proof.
  intros [Ha Hb]. unfold round_half_even.
  pose proof (Int_part_bounds x) as [Hn1 Hn2].
  set (n := Int_part x) in *.
  assert (Hlo : (a <= n)%Z).
  { apply Z.lt_succ_r. apply lt_IZR. rewrite succ_IZR. lra. }
  assert (Hhi : (n <= b)%Z) by (apply le_IZR; lra).
  assert (Hstrict : IZR n < x -> (n + 1 <= b)%Z).
  { intros Hlt. apply Z.le_succ_l. apply lt_IZR. lra. }
  destruct (Rlt_dec (x - IZR n) (1 / 2)) as [_ | H1]; [lia |].
  destruct (Rlt_dec (1 / 2) (x - IZR n)) as [H2 | H2].
  - assert (IZR n < x) by lra. specialize (Hstrict H). lia.
  - destruct (Z.even n); [lia |].
    assert (IZR n < x) by lra. specialize (Hstrict H). lia.
Qed.

Lemma round2_between (a b : Z) (x : R) :
  IZR a / 100 <= x <= IZR b / 100 -> IZR a / 100 <= round2 x <= IZR b / 100.
Proof.
  intros [Ha Hb]. unfold round2.
  destruct (round_half_even_between a b (x * 100)) as [H1 H2]; [lra |].
  apply IZR_le in H1. apply IZR_le in H2. lra.
Qed.

Lemma round2_hundredths (z : Z) : round2 (IZR z / 100) = IZR z / 100.
Proof.
  unfold round2. replace (IZR z / 100 * 100) with (IZR z) by lra.
  now rewrite round_half_even_IZR.
Qed.

(** A value strictly inside the half-open cell of [z / 100]. *)
Lemma round2_near (z : Z) (x : R) :
  IZR z - 1 / 2 < x * 100 < IZR z + 1 / 2 -> round2 x = IZR z / 100.
Proof.
  intros [H1 H2]. unfold round2. f_equal. f_equal.
  unfold round_half_even.
  pose proof (Int_part_bounds (x * 100)) as [Hn1 Hn2].
  set (n := Int_part (x * 100)) in *.
  destruct (Rlt_dec (x * 100 - IZR n) (1 / 2)) as [Hf | Hf].
  - (* x*100 in [n, n + 1/2) and in (z - 1/2, z + 1/2) *)
    assert (n < z + 1)%Z by (apply lt_IZR; rewrite plus_IZR; lra).
    assert (z - 1 < n)%Z by (apply lt_IZR; rewrite minus_IZR; lra).
    lia.
  - assert (Hgt : 1 / 2 <= x * 100 - IZR n) by lra.
    assert (n < z)%Z by (apply lt_IZR; lra).
    assert (z - 2 < n)%Z by (apply lt_IZR; rewrite minus_IZR; lra).
    assert (n = z - 1)%Z by lia.
    destruct (Rlt_dec (1 / 2) (x * 100 - IZR n)) as [_ | Hh]; [lia |].
    subst n. rewrite H3 in Hh, Hgt. rewrite minus_IZR in Hh, Hgt. lra.
Qed.

(** ** Theorems: linear pricing *)

(** Nothing clamps the linear price: with the defaults it exceeds every
    bound. *)
Lemma linear_pricing_model_unbounded :
  forall bound : R, exists occupancy : Z,
    (0 <= occupancy)%Z /\
    exists p, linear_pricing_model occupancy 1 default_base_price default_alpha
              = Ok p /\ bound < p.
Proof.
  intros bound.
  exists (Z.max 0 (up bound)). split; [lia |].
  unfold linear_pricing_model, truediv, default_base_price, default_alpha.
  simpl. eexists. split; [reflexivity |].
  set (o := Z.max 0 (up bound)).
  replace (10.0 + 5.0 * (IZR o / 1)) with (IZR ((10 + 5 * o) * 100) / 100)
    by (rewrite mult_IZR, plus_IZR, mult_IZR; lra).
  rewrite round2_hundredths.
  rewrite mult_IZR, plus_IZR, mult_IZR.
  assert (IZR (up bound) <= IZR o) by (apply IZR_le; unfold o; lia).
  assert (0 <= IZR o) by (apply IZR_le; unfold o; lia).
  destruct (archimed bound) as [Hup _]. lra.
Qed.

(** C7: with capacity 0 the linear pricing raises a division error instead
    of returning a price; with any capacity > 0 it returns a price. *)
Theorem linear_pricing_model_zero_capacity :
  (forall (occupancy : Z) (base_price alpha : R),
      linear_pricing_model occupancy 0 base_price alpha = Raise ZeroDivisionError)
  /\ (forall (occupancy capacity : Z) (base_price alpha : R),
         (0 < capacity)%Z ->
         exists p, linear_pricing_model occupancy capacity base_price alpha = Ok p).
Proof.
  split.
  - intros. reflexivity.
  - intros occupancy capacity base_price alpha Hcap.
    unfold linear_pricing_model, truediv.
    destruct (Z.eqb_spec capacity 0) as [-> | _]; [lia |].
    simpl. eexists. reflexivity.
Qed.

Lemma linear_pricing_model_zero_capacity_witness :
  (0 < 100)%Z /\ exists p, linear_pricing_model 50 100 10 5 = Ok p.
Proof.
  split; [lia |].
  apply (proj2 linear_pricing_model_zero_capacity 50%Z 100%Z 10 5). lia.
Defined.

(** ** Facts about float comparisons, [min] and [max] *)

Lemma Rltb_true (x y : R) : x < y -> Rltb x y = true.
Proof.
  intros H. unfold Rltb. destruct (Rlt_dec x y); [reflexivity | contradiction].
Qed.

Lemma Rltb_false (x y : R) : y <= x -> Rltb x y = false.
Proof.
  intros H. unfold Rltb. destruct (Rlt_dec x y); [lra | reflexivity].
Qed.

Lemma pymax_Fin (x c : R) : pymax (Fin x) (Fin c) = Fin (Rmax x c).
Proof.
  unfold pymax, fgt, flt, Rltb, Rmax.
  destruct (Rlt_dec x c), (Rle_dec x c);
    try reflexivity; try (exfalso; lra); f_equal; lra.
Qed.

Lemma pymin_Fin (x c : R) : pymin (Fin x) (Fin c) = Fin (Rmin x c).
Proof.
  unfold pymin, flt, Rltb, Rmin.
  destruct (Rlt_dec c x), (Rle_dec x c);
    try reflexivity; try (exfalso; lra); f_equal; lra.
Qed.

Lemma pymax_NaN (b : pyfloat) : pymax NaN b = NaN.
Proof. unfold pymax, fgt, flt. destruct b; reflexivity. Qed.

Lemma pymin_NaN (b : pyfloat) : pymin NaN b = NaN.
Proof. unfold pymin, flt. destruct b; reflexivity. Qed.

Lemma clamp_Fin (lo hi x : R) : clamp lo hi (Fin x) = Fin (Rmin (Rmax x lo) hi).
Proof. unfold clamp. now rewrite pymax_Fin, pymin_Fin. Qed.

Lemma clamp_NaN (lo hi : R) : clamp lo hi NaN = NaN.
Proof. unfold clamp. now rewrite pymax_NaN, pymin_NaN. Qed.

Lemma Rmin_Rmax_between (lo hi x : R) :
  lo <= hi -> lo <= Rmin (Rmax x lo) hi <= hi.
Proof.
  intros H. unfold Rmin, Rmax.
  destruct (Rle_dec x lo); destruct (Rle_dec _ hi); lra.
Qed.

Lemma Rmin_Rmax_inert (lo hi x : R) :
  lo <= x <= hi -> Rmin (Rmax x lo) hi = x.
Proof.
  intros H. unfold Rmin, Rmax.
  destruct (Rle_dec x lo); destruct (Rle_dec _ hi); lra.
Qed.



(** ** Theorems: demand-based pricing *)

Lemma weighted_sum_code (r : row) :
  fadd (fadd (fadd (fadd
    (fmul (Fin 0.4) (NormalizedOccupancyRate r))
    (fmul (Fin 0.3) (NormalizedQueueLength r)))
    (fdivc (fmul (Fin 0.1) (TrafficConditionEncoded r)) 2))
    (fdivc (fmul (Fin 0.1) (VehicleTypeEncoded r)) 1.5))
    (fmul (Fin 0.1) (IsSpecialDay r))
  = weighted_sum r.
Proof.
  unfold weighted_sum.
  destruct (NormalizedOccupancyRate r), (NormalizedQueueLength r),
    (TrafficConditionEncoded r), (VehicleTypeEncoded r), (IsSpecialDay r);
    simpl; try reflexivity.
  f_equal. lra.
Qed.

Lemma demand_based_price_eq_spec (r : row) (base_price lambd : R) :
  demand_based_price r base_price lambd = demand_price_spec r base_price lambd.
Proof.
  unfold demand_based_price, demand_price_spec, demand_score, clamp.
  cbv zeta. now rewrite weighted_sum_code.
Qed.

(** ** Facts about the haversine distance *)

Lemma Rleb_spec (x y : R) : Rleb x y = true <-> x <= y.
Proof.
  unfold Rleb. destruct (Rle_dec x y); split; intros; auto; discriminate.
Qed.

Lemma radians_0 : radians 0 = 0.
Proof. unfold radians. lra. Qed.

Lemma radians_opp (d : R) : radians (- d) = - radians d.
Proof. unfold radians. lra. Qed.

Lemma haversine_sym (lat1 lon1 lat2 lon2 : R) :
  haversine lat1 lon1 lat2 lon2 = haversine lat2 lon2 lat1 lon1.
Proof.
  unfold haversine. cbv zeta. do 3 f_equal.
  replace (lat1 - lat2) with (- (lat2 - lat1)) by lra.
  replace (lon1 - lon2) with (- (lon2 - lon1)) by lra.
  rewrite !radians_opp.
  replace (- radians (lat2 - lat1) / 2) with (- (radians (lat2 - lat1) / 2)) by lra.
  replace (- radians (lon2 - lon1) / 2) with (- (radians (lon2 - lon1) / 2)) by lra.
  rewrite !sin_neg. ring.
Qed.

Lemma haversine_refl (lat lon : R) : haversine lat lon lat lon = 0.
Proof.
  unfold haversine. cbv zeta.
  replace (lat - lat) with 0 by lra. replace (lon - lon) with 0 by lra.
  rewrite radians_0. replace (0 / 2) with 0 by lra. rewrite sin_0.
  replace (0 ^ 2 + cos (radians lat) * cos (radians lat) * 0 ^ 2) with 0 by ring.
  rewrite sqrt_0, asin_0. ring.
Qed.

(** Along a meridian the distance is the arc [R * dphi]. *)
Lemma haversine_same_longitude (lat1 lat2 lon : R) :
  0 <= lat2 - lat1 <= 180 ->
  haversine lat1 lon lat2 lon = 6371 * radians (lat2 - lat1).
Proof.
  intros [H0 H180]. unfold haversine. cbv zeta.
  replace (lon - lon) with 0 by lra.
  rewrite radians_0. replace (0 / 2) with 0 by lra. rewrite sin_0.
  set (d := radians (lat2 - lat1)).
  assert (Hd : 0 <= d / 2 <= PI / 2).
  { unfold d, radians. pose proof PI_RGT_0. split; nra. }
  replace (sin (d / 2) ^ 2 + cos (radians lat1) * cos (radians lat2) * 0 ^ 2)
    with (sin (d / 2) ^ 2) by ring.
  rewrite sqrt_pow2.
  - rewrite asin_sin by lra. lra.
  - apply sin_ge_0; pose proof PI_RGT_0; lra.
Qed.

Lemma PI_gt_3 : 3 < PI.
Proof. pose proof PI2_3_2. lra. Qed.

(** ** The neighbour loop selects the other lots within the radius *)

Lemma truediv_positive (a b : Z) :
  (0 < b)%Z -> truediv a b = Ok (IZR a / IZR b).
Proof.
  intros H. unfold truediv.
  destruct (Z.eqb_spec b 0); [lia | reflexivity].
Qed.

Lemma neighbors_loop_filter (lat1 lon1 : R) (index : nat) (radius_km : R)
    (rows : list (nat * row)) :
  Forall (fun ir => (0 < Capacity (snd ir))%Z) rows ->
  forall acc,
    neighbors_loop lat1 lon1 index radius_km rows acc
    = Ok (acc ++ map (fun ir => neighbor_entry (snd ir))
                     (filter (selected lat1 lon1 index radius_km) rows)).
Proof.
  induction 1 as [| [i r] rest Hcap _ IH]; intros acc; simpl.
  - now rewrite app_nil_r.
  - unfold selected at 1. simpl.
    destruct (Nat.eqb i index); simpl; [apply IH |].
    destruct (Rleb _ radius_km); [| apply IH].
    simpl in Hcap. rewrite (truediv_positive _ _ Hcap). simpl.
    rewrite IH, <- app_assoc. reflexivity.
Qed.

Lemma iterrows_capacities (df : DataFrame) :
  capacities_positive df ->
  Forall (fun ir => (0 < Capacity (snd ir))%Z) (iterrows df).
Proof.
  unfold capacities_positive, iterrows. intros H.
  apply Forall_forall. intros [i r] Hin. simpl.
  apply in_combine_r in Hin.
  rewrite Forall_forall in H. now apply H.
Qed.

Lemma In_iterrows (df : DataFrame) (j : nat) (r : row) :
  In (j, r) (iterrows df) <-> nth_error df j = Some r.
Proof.
  unfold iterrows. split.
  - intros Hin. apply In_nth_error in Hin as [k Hk].
    assert (Hlt : (k < List.length (combine (seq 0 (List.length df)) df))%nat)
      by (apply nth_error_Some; congruence).
    rewrite length_combine, length_seq, Nat.min_id in Hlt.
    apply nth_error_nth with (d := (0%nat, r)) in Hk.
    rewrite (combine_nth _ _ _ 0%nat r) in Hk by (now rewrite length_seq).
    rewrite seq_nth in Hk by exact Hlt. simpl in Hk.
    injection Hk as Hj Hr. subst j. rewrite <- Hr.
    now apply nth_error_nth'.
  - intros Hj.
    assert (Hlt : (j < List.length df)%nat)
      by (apply nth_error_Some; congruence).
    apply nth_error_nth with (d := r) in Hj.
    replace (j, r)
      with (nth j (combine (seq 0 (List.length df)) df) (0%nat, r)).
    + apply nth_In. now rewrite length_combine, length_seq, Nat.min_id.
    + rewrite combine_nth by (now rewrite length_seq).
      rewrite seq_nth by exact Hlt. simpl. now rewrite Hj.
Qed.

Lemma filter_none {A : Type} (f : A -> bool) (l : list A) :
  (forall x, In x l -> f x = false) -> filter f l = [].
Proof.
  induction l as [| a l IH]; intros H; simpl; [reflexivity |].
  rewrite (H a) by (now left). apply IH. intros x Hx. apply H. now right.
Qed.

Lemma combine_map_r {A B C : Type} (f : B -> C) (l : list A) (l' : list B) :
  combine l (map f l') = map (fun p => (fst p, f (snd p))) (combine l l').
Proof.
  revert l'. induction l as [| a l IH]; intros [| b l']; simpl; try reflexivity.
  now rewrite IH.
Qed.

Lemma filter_map_comm {A B : Type} (f : A -> B) (P : B -> bool) (l : list A) :
  filter P (map f l) = map f (filter (fun a => P (f a)) l).
Proof.
  induction l as [| a l IH]; simpl; [reflexivity |].
  destruct (P (f a)); simpl; now rewrite IH.
Qed.

Lemma query_freeze (index : nat) (own : row) (radius_km : R) (df : DataFrame) :
  query index (snapshot_of own) radius_km (freeze df)
  = map (fun ir => snapshot_of (snd ir))
        (filter (selected (Latitude own) (Longitude own) index radius_km)
                (iterrows df)).
Proof.
  unfold query, freeze, iterrows.
  rewrite length_map, combine_map_r, filter_map_comm, map_map.
  reflexivity.
Qed.

(** The decision taken on the loop's list of pairs is the policy's decision
    on the corresponding snapshots. *)
Lemma decision_eq_policy (own_price : pyfloat) (l : list (nat * row)) :
  match map (fun ir => neighbor_entry (snd ir)) l with
  | [] => Ok own_price
  | _ :: _ =>
      let neighbors := map (fun ir => neighbor_entry (snd ir)) l in
      let avg_price := np_mean (map fst neighbors) in
      let avg_occ := np_mean (map snd neighbors) in
      if fgt avg_occ (Fin 0.9) && fgt avg_price own_price then
        Ok (pymin (fadd own_price (Fin 1)) (Fin 20))
      else if flt avg_price own_price then
        Ok (pymax (fsub own_price (Fin 1)) (Fin 5))
      else
        Ok own_price
  end
  = Ok (competitive_policy own_price (map (fun ir => snapshot_of (snd ir)) l)).
Proof.
  destruct l as [| ir l]; [reflexivity |].
  unfold competitive_policy. cbv zeta.
  set (nb := map (fun ir => neighbor_entry (snd ir)) (ir :: l)).
  set (sn := map (fun ir => snapshot_of (snd ir)) (ir :: l)).
  assert (Hp : map fst nb = map snap_demand_price sn)
    by (unfold nb, sn; now rewrite !map_map).
  assert (Ho : map snd nb = map snap_occupancy_rate sn)
    by (unfold nb, sn; now rewrite !map_map).
  rewrite Hp, Ho. unfold nb, sn. cbn [map].
  destruct (_ && _); [reflexivity |].
  destruct (flt _ _); reflexivity.
Qed.

(** On a table of positive capacities the code's [competitive_price] is the
    specification's policy applied to the frozen snapshot. *)
Lemma competitive_price_eq_policy (index : nat) (df : DataFrame) (radius_km : R)
    (own : row) :
  capacities_positive df ->
  nth_error df index = Some own ->
  competitive_price index df radius_km
  = Ok (competitive_policy (DemandPrice own)
          (query index (snapshot_of own) radius_km (freeze df))).
Proof.
  intros Hcap Hown. unfold competitive_price, loc. rewrite Hown.
  cbn [bind].
  rewrite (neighbors_loop_filter _ _ _ _ _ (iterrows_capacities _ Hcap)).
  cbn [bind app]. rewrite query_freeze.
  apply decision_eq_policy.
Qed.

(** ** Theorems: the competitive policy *)

Lemma flt_NaN_r (a : pyfloat) : flt a NaN = false.
Proof. destruct a; reflexivity. Qed.

Lemma competitive_policy_NaN (nb : list lot_snapshot) :
  competitive_policy NaN nb = NaN.
Proof.
  unfold competitive_policy. destruct nb; [reflexivity |].
  cbv zeta. unfold fgt at 2. simpl (flt NaN _).
  rewrite andb_false_r, flt_NaN_r. reflexivity.
Qed.

Lemma competitive_policy_Fin (p : R) (nb : list lot_snapshot) :
  exists q, competitive_policy (Fin p) nb = Fin q
            /\ (q = p \/ q = Rmin (p + 1) 20 \/ q = Rmax (p - 1) 5).
Proof.
  unfold competitive_policy. destruct nb; [exists p; auto |].
  cbv zeta. destruct (_ && _).
  - exists (Rmin (p + 1) 20). simpl fadd. rewrite pymin_Fin. auto.
  - destruct (flt _ _).
    + exists (Rmax (p - 1) 5). simpl fsub. rewrite pymax_Fin. auto.
    + exists p. auto.
Qed.

Lemma competitive_policy_within_one (p : R) (nb : list lot_snapshot) :
  5 <= p <= 20 ->
  exists q, competitive_policy (Fin p) nb = Fin q
            /\ Rabs (q - p) <= 1 /\ 5 <= q <= 20.
Proof.
  intros Hp. destruct (competitive_policy_Fin p nb) as [q [Hq Hcase]].
  exists q. split; [exact Hq |].
  unfold Rmin, Rmax in Hcase.
  destruct (Rle_dec (p + 1) 20), (Rle_dec (p - 1) 5);
    destruct Hcase as [-> | [-> | ->]];
    (split; [apply Rabs_le |]); lra.
Qed.

Lemma within_near : Rleb (haversine 0 0 0.001 0) 1.0 = true.
Proof.
  apply Rleb_spec. rewrite haversine_same_longitude by lra.
  unfold radians. pose proof PI_4. lra.
Qed.

(** ** Bounds on the prices *)

Lemma weighted_sum_numeric (r : row) :
  numeric_features r -> exists w, weighted_sum r = Fin w.
Proof.
  unfold numeric_features, weighted_sum.
  destruct (NormalizedOccupancyRate r), (NormalizedQueueLength r),
    (TrafficConditionEncoded r), (VehicleTypeEncoded r), (IsSpecialDay r);
    simpl; intuition; eexists; reflexivity.
Qed.

Lemma demand_score_numeric (r : row) :
  numeric_features r -> exists d, demand_score r = Fin d /\ 0 <= d <= 1.
Proof.
  intros H. destruct (weighted_sum_numeric r H) as [w Hw].
  unfold demand_score. rewrite Hw, clamp_Fin.
  eexists. split; [reflexivity |]. apply Rmin_Rmax_between. lra.
Qed.

Lemma demand_score_nan_or_unit (r : row) :
  demand_score r = NaN \/ in_range 0 1 (demand_score r).
Proof.
  unfold demand_score. destruct (weighted_sum r) as [w |].
  - right. rewrite clamp_Fin. simpl. apply Rmin_Rmax_between. lra.
  - left. apply clamp_NaN.
Qed.

(** The demand price of a row without NaN feature is in [5, 20], whatever
    the base price and lambda. *)
Lemma demand_based_price_in_range (r : row) (base_price lambd : R) :
  numeric_features r ->
  in_range 5 20 (demand_based_price r base_price lambd).
Proof.
  intros H. rewrite demand_based_price_eq_spec. unfold demand_price_spec.
  destruct (demand_score_numeric r H) as [d [-> _]].
  simpl fmul. simpl fadd. simpl fmul. rewrite clamp_Fin. simpl.
  pose proof (Rmin_Rmax_between 5 20 (base_price * (1 + lambd * d))
                ltac:(lra)) as Hb.
  set (x := Rmin (Rmax (base_price * (1 + lambd * d)) 5) 20) in *.
  destruct (round2_between 500 2000 x); lra.
Qed.

(** A demand price is NaN or in [5, 20]. *)
Lemma demand_based_price_nan_or_in_range (r : row) (base_price lambd : R) :
  demand_based_price r base_price lambd = NaN
  \/ in_range 5 20 (demand_based_price r base_price lambd).
Proof.
  rewrite demand_based_price_eq_spec. unfold demand_price_spec.
  destruct (demand_score r) as [d |].
  - right. simpl fmul. simpl fadd. simpl fmul. rewrite clamp_Fin. simpl.
    pose proof (Rmin_Rmax_between 5 20 (base_price * (1 + lambd * d))
                  ltac:(lra)) as Hb.
    set (x := Rmin (Rmax (base_price * (1 + lambd * d)) 5) 20) in *.
    destruct (round2_between 500 2000 x); lra.
  - left. reflexivity.
Qed.

(** With the default parameters the [5, 20] clamp is inert and the demand
    price of a row without NaN feature is in [10, 15]. *)
Lemma default_demand_price_range (r : row) :
  numeric_features r ->
  in_range 10 15 (demand_based_price r default_base_price default_lambd)
  /\ demand_based_price r default_base_price default_lambd
     = pyround2 (fmul (Fin default_base_price)
                      (fadd (Fin 1) (fmul (Fin default_lambd) (demand_score r)))).
Proof.
  intros H. rewrite demand_based_price_eq_spec. unfold demand_price_spec.
  destruct (demand_score_numeric r H) as [d [-> Hd]].
  simpl fmul. simpl fadd. simpl fmul. rewrite clamp_Fin.
  unfold default_base_price, default_lambd.
  rewrite Rmin_Rmax_inert by lra. simpl. split; [| reflexivity].
  destruct (round2_between 1000 1500 (10.0 * (1 + 0.5 * d))); lra.
Qed.

(** Whatever the neighbours, a competitive price computed from an own demand
    price in [5, 20] is in [5, 20]. *)
Lemma competitive_price_in_range (index : nat) (df : DataFrame) (radius_km : R)
    (own : row) :
  capacities_positive df ->
  nth_error df index = Some own ->
  in_range 5 20 (DemandPrice own) ->
  exists c, competitive_price index df radius_km = Ok c /\ in_range 5 20 c.
Proof.
  intros Hcap Hown Hrange.
  rewrite (competitive_price_eq_policy _ _ _ _ Hcap Hown).
  destruct (DemandPrice own) as [p |]; [| contradiction].
  destruct (competitive_policy_within_one p
              (query index (snapshot_of own) radius_km (freeze df)) Hrange)
    as [q [Hq [_ Hb]]].
  exists (Fin q). rewrite Hq. split; [reflexivity | exact Hb].
Qed.

(** With demand prices in [10, 15] the caps of the competitive adjustment
    never bind: the result is the own price, the own price plus one or the
    own price minus one. *)
Lemma competitive_caps_not_binding (p : R) (nb : list lot_snapshot) :
  10 <= p <= 15 ->
  competitive_policy (Fin p) nb = Fin p
  \/ competitive_policy (Fin p) nb = Fin (p + 1)
  \/ competitive_policy (Fin p) nb = Fin (p - 1).
Proof.
  intros Hp. destruct (competitive_policy_Fin p nb) as [q [Hq Hcase]].
  rewrite Hq. unfold Rmin, Rmax in Hcase.
  destruct (Rle_dec (p + 1) 20), (Rle_dec (p - 1) 5); try lra;
    destruct Hcase as [-> | [-> | ->]]; auto.
Qed.

Lemma default_competitive_price_uncapped (index : nat) (df : DataFrame)
    (radius_km : R) (own r : row) :
  capacities_positive df ->
  nth_error df index = Some own ->
  numeric_features r ->
  DemandPrice own = demand_based_price r default_base_price default_lambd ->
  exists p, DemandPrice own = Fin p /\ 10 <= p <= 15
            /\ (competitive_price index df radius_km = Ok (Fin p)
                \/ competitive_price index df radius_km = Ok (Fin (p + 1))
                \/ competitive_price index df radius_km = Ok (Fin (p - 1))).
Proof.
  intros Hcap Hown Hnum Hdemand.
  rewrite (competitive_price_eq_policy _ _ _ _ Hcap Hown), Hdemand.
  destruct (default_demand_price_range r Hnum) as [Hrange _].
  destruct (demand_based_price r default_base_price default_lambd) as [p |];
    [| contradiction].
  exists p. split; [reflexivity |]. split; [exact Hrange |].
  destruct (competitive_caps_not_binding p
              (query index (snapshot_of own) radius_km (freeze df)) Hrange)
    as [-> | [-> | ->]]; auto.
Qed.

(** C4, on a reading the notebook's own preprocessing produces: the vehicle
    type ["cycle"] is no key of the encoding dict, its code is NaN, and the
    demand price is NaN, which the [5, 20] clamp lets through: the price is
    not in [5, 20]. *)
Theorem demand_based_price_nan_escapes_clamp :
  VehicleTypeEncoded (encode cycle_reading) = NaN
  /\ demand_based_price (encode cycle_reading) default_base_price default_lambd
     = NaN
  /\ ~ in_range 5 20
       (demand_based_price (encode cycle_reading) default_base_price
                           default_lambd).
Proof.
  assert (H : demand_based_price (encode cycle_reading) default_base_price
                                 default_lambd = NaN) by reflexivity.
  split; [reflexivity |]. split; [exact H |].
  rewrite H. simpl. tauto.
Qed.

(** C10, on a reading the notebook's own preprocessing produces: the traffic
    condition ["average"] is no key of the encoding dict, its code is NaN,
    and with the default parameters the demand price is NaN, not a number
    of [10, 15]. *)
Theorem default_demand_price_nan_outside_10_15 :
  TrafficConditionEncoded (encode average_traffic_reading) = NaN
  /\ demand_based_price (encode average_traffic_reading) default_base_price
                        default_lambd = NaN
  /\ ~ in_range 10 15
       (demand_based_price (encode average_traffic_reading) default_base_price
                           default_lambd).
Proof.
  assert (H : demand_based_price (encode average_traffic_reading)
                                 default_base_price default_lambd = NaN)
    by reflexivity.
  split; [reflexivity |]. split; [exact H |].
  rewrite H. simpl. tauto.
Qed.

(** C5: a lot whose demand price is NaN gets the competitive price NaN,
    whatever the other rows: the comparisons with NaN are false, so the own
    price is returned as it is.  Lot Y of the batch of five, whose vehicle
    type ["cycle"] is no key of the encoding dict, is such a lot after the
    demand pass; its competitive price and its demand price are not
    within 1.0 of each other, neither being a number. *)
Theorem competitive_price_nan_is_no_nudge :
  (forall (index : nat) (df : DataFrame) (radius_km : R) (own : row)
          (c : pyfloat),
      nth_error df index = Some own ->
      DemandPrice own = NaN ->
      competitive_price index df radius_km = Ok c ->
      c = NaN /\ ~ adjustment_within_one c (DemandPrice own))
  /\ VehicleType (nth 2 batch_of_five scenario_reading) = "cycle"%string
  /\ DemandPrice (nth 2 (apply_demand_based_price (map encode batch_of_five))
                      scenario_reading) = NaN
  /\ competitive_price 2 (apply_demand_based_price (map encode batch_of_five))
                       default_radius_km = Ok NaN
  /\ ~ adjustment_within_one NaN NaN.
Proof.
  split; [| split; [| split; [| split]]].
  - intros index df radius_km own c Hown Hnan.
    unfold competitive_price, loc. rewrite Hown. cbn [bind].
    destruct (neighbors_loop _ _ _ _ _ _) as [neighbors | e];
      cbn [bind]; [| discriminate].
    rewrite Hnan.
    assert (Hc : forall a, flt a NaN = false) by (intros [x |]; reflexivity).
    destruct neighbors as [| n ns].
    + intros H. injection H as <-. split; [reflexivity | intros []].
    + cbv zeta. unfold fgt at 2. cbn [flt]. rewrite andb_false_r, Hc.
      intros H. injection H as <-. split; [reflexivity | intros []].
  - reflexivity.
  - reflexivity.
  - assert (E : DemandPrice
                 (nth 2 (apply_demand_based_price (map encode batch_of_five))
                      scenario_reading) = NaN) by reflexivity.
    rewrite (competitive_price_eq_policy 2 _ default_radius_km
               (nth 2 (apply_demand_based_price (map encode batch_of_five))
                    scenario_reading));
      [| repeat constructor | reflexivity].
    rewrite E. f_equal. apply competitive_policy_NaN.
  - intros [].
Qed.

Lemma competitive_price_nan_is_no_nudge_witness :
  NaN = NaN
  /\ ~ adjustment_within_one NaN (DemandPrice (set_DemandPrice NaN lot_X)).
Proof.
  apply (proj1 competitive_price_nan_is_no_nudge 0%nat
           [set_DemandPrice NaN lot_X; lot_near 15] default_radius_km
           (set_DemandPrice NaN lot_X) NaN).
  - reflexivity.
  - reflexivity.
  - unfold competitive_price, default_radius_km. simpl.
    unfold truediv. simpl. rewrite within_near. simpl.
    rewrite andb_false_r. reflexivity.
Defined.

(** ** The competitive pass never reads the [CompetitivePrice] column *)

Lemma neighbors_loop_blank (lat1 lon1 : R) (index : nat) (radius_km : R)
    (rows : list (nat * row)) :
  forall acc,
    neighbors_loop lat1 lon1 index radius_km
      (map (fun ir => (fst ir, blank_CompetitivePrice (snd ir))) rows) acc
    = neighbors_loop lat1 lon1 index radius_km rows acc.
Proof.
  induction rows as [| [i r] rest IH]; intros acc; simpl; [reflexivity |].
  destruct (Nat.eqb i index); [apply IH |].
  destruct (Rleb _ radius_km); [| apply IH].
  destruct (truediv (Occupancy r) (Capacity r)); simpl; [apply IH | reflexivity].
Qed.

Lemma competitive_price_blank (index : nat) (df : DataFrame) (radius_km : R) :
  competitive_price index (map blank_CompetitivePrice df) radius_km
  = competitive_price index df radius_km.
Proof.
  unfold competitive_price, loc, iterrows.
  rewrite nth_error_map, length_map, combine_map_r.
  destruct (nth_error df index) as [own |]; simpl; [| reflexivity].
  now rewrite neighbors_loop_blank.
Qed.

Lemma competitive_price_same_inputs (index : nat) (df df' : DataFrame)
    (radius_km : R) :
  map blank_CompetitivePrice df' = map blank_CompetitivePrice df ->
  competitive_price index df' radius_km = competitive_price index df radius_km.
Proof.
  intros H. rewrite <- (competitive_price_blank index df'),
              <- (competitive_price_blank index df), H.
  reflexivity.
Qed.

Lemma blank_set_at (j : nat) (p : pyfloat) (df : DataFrame) :
  map blank_CompetitivePrice (set_at j (set_CompetitivePrice p) df)
  = map blank_CompetitivePrice df.
Proof.
  revert j. induction df as [| r df IH]; intros [| j]; simpl;
    try reflexivity.
  now rewrite IH.
Qed.

Lemma competitive_price_frame (i j : nat) (p : pyfloat) (df : DataFrame)
    (radius_km : R) :
  competitive_price i (set_at j (set_CompetitivePrice p) df) radius_km
  = competitive_price i df radius_km.
Proof.
  apply competitive_price_same_inputs, blank_set_at.
Qed.

(** ** The comprehension computes the two-phase prices *)

Lemma mapM_seq_combine {A B : Type} (f : nat -> result B) (g : nat * A -> B)
    (l : list A) :
  forall s,
    (forall i a, nth_error l i = Some a -> f (s + i)%nat = Ok (g ((s + i)%nat, a))) ->
    mapM f (seq s (List.length l)) = Ok (map g (combine (seq s (List.length l)) l)).
Proof.
  induction l as [| a l IH]; intros s H; simpl; [reflexivity |].
  rewrite <- (Nat.add_0_r s) at 1. rewrite (H 0%nat a eq_refl). simpl.
  rewrite (IH (S s)).
  - simpl. now rewrite Nat.add_0_r.
  - intros i b Hi. rewrite Nat.add_succ_comm. now apply (H (S i)).
Qed.

Lemma two_phase_rows (radius_km : R) (df : DataFrame) :
  two_phase radius_km df
  = map (fun ir => competitive_policy (DemandPrice (snd ir))
                     (query (fst ir) (snapshot_of (snd ir)) radius_km (freeze df)))
        (iterrows df).
Proof.
  unfold two_phase, iterrows. cbv zeta. unfold freeze at 2 3.
  rewrite length_map, combine_map_r, map_map. reflexivity.
Qed.

Lemma competitive_prices_two_phase (df : DataFrame) (radius_km : R) :
  capacities_positive df ->
  mapM (fun i => competitive_price i df radius_km) (seq 0 (List.length df))
  = Ok (two_phase radius_km df).
Proof.
  intros Hcap. rewrite two_phase_rows. unfold iterrows.
  apply mapM_seq_combine. intros i own Hown. simpl.
  now apply competitive_price_eq_policy.
Qed.

Lemma two_phase_length (radius_km : R) (df : DataFrame) :
  List.length (two_phase radius_km df) = List.length df.
Proof.
  rewrite two_phase_rows, length_map. unfold iterrows.
  now rewrite length_combine, length_seq, Nat.min_id.
Qed.

Lemma two_phase_nth (radius_km : R) (df : DataFrame) (i : nat) (own : row) :
  capacities_positive df ->
  nth_error df i = Some own ->
  exists p, competitive_price i df radius_km = Ok p
            /\ nth_error (two_phase radius_km df) i = Some p.
Proof.
  intros Hcap Hown.
  rewrite (competitive_price_eq_policy _ _ _ _ Hcap Hown).
  eexists. split; [reflexivity |].
  rewrite two_phase_rows, nth_error_map.
  assert (Hi : nth_error (iterrows df) i = Some (i, own)).
  { unfold iterrows.
    assert (Hlt : (i < List.length df)%nat) by (apply nth_error_Some; congruence).
    rewrite (nth_error_nth' _ (0%nat, own))
      by (now rewrite length_combine, length_seq, Nat.min_id).
    rewrite combine_nth by (now rewrite length_seq).
    rewrite seq_nth by exact Hlt.
    apply nth_error_nth with (d := own) in Hown. simpl. now rewrite Hown. }
  rewrite Hi. reflexivity.
Qed.

(** ** Row-by-row writes into the shared table do not change the prices *)

Lemma set_at_nth_same (i : nat) (p : pyfloat) (df : DataFrame) :
  (i < List.length df)%nat ->
  nth_error (map CompetitivePrice (set_at i (set_CompetitivePrice p) df)) i
  = Some p.
Proof.
  revert i. induction df as [| r df IH]; intros [| i] H; simpl in *;
    try lia; [reflexivity |].
  apply IH. lia.
Qed.

Lemma set_at_nth_other (i j : nat) (p : pyfloat) (df : DataFrame) :
  j <> i ->
  nth_error (map CompetitivePrice (set_at i (set_CompetitivePrice p) df)) j
  = nth_error (map CompetitivePrice df) j.
Proof.
  revert i j. induction df as [| r df IH]; intros [| i] [| j] H; simpl;
    try reflexivity; try congruence.
  apply IH. congruence.
Qed.

Lemma same_blank_length (df df' : DataFrame) :
  map blank_CompetitivePrice df' = map blank_CompetitivePrice df ->
  List.length df' = List.length df.
Proof.
  intros H. apply (f_equal (@List.length row)) in H.
  now rewrite !length_map in H.
Qed.

Lemma row_by_row_invariant (radius_km : R) (df : DataFrame) :
  capacities_positive df ->
  forall (order : list nat) (cur : DataFrame),
    map blank_CompetitivePrice cur = map blank_CompetitivePrice df ->
    (forall i, In i order -> (i < List.length df)%nat) ->
    exists final,
      row_by_row radius_km order cur = Ok final
      /\ map blank_CompetitivePrice final = map blank_CompetitivePrice df
      /\ (forall i, In i order ->
                    nth_error (map CompetitivePrice final) i
                    = nth_error (two_phase radius_km df) i)
      /\ (forall i, ~ In i order ->
                    nth_error (map CompetitivePrice final) i
                    = nth_error (map CompetitivePrice cur) i).
Proof.
  intros Hcap. induction order as [| i rest IH]; intros cur Hcur Hlt.
  - exists cur. simpl. repeat split; auto. intros i [].
  - assert (Hi : (i < List.length df)%nat) by (apply Hlt; now left).
    destruct (nth_error df i) as [own |] eqn:Hown;
      [| apply nth_error_None in Hown; lia].
    destruct (two_phase_nth radius_km df i own Hcap Hown) as [p [Hp Hnth]].
    simpl. rewrite (competitive_price_same_inputs i df cur radius_km Hcur), Hp.
    simpl.
    destruct (IH (set_at i (set_CompetitivePrice p) cur)) as [final [Hrun [Hbl [Hin Hout]]]].
    + now rewrite blank_set_at.
    + intros j Hj. apply Hlt. now right.
    + exists final. split; [exact Hrun |]. split; [exact Hbl |]. split.
      * intros j Hj. destruct (in_dec Nat.eq_dec j rest) as [Hr | Hr].
        -- now apply Hin.
        -- destruct Hj as [<- | Hj]; [| contradiction].
           rewrite (Hout i Hr), Hnth. apply set_at_nth_same.
           now rewrite (same_blank_length df cur Hcur).
      * intros j Hj. rewrite Hout by (intros Hr; apply Hj; now right).
        apply set_at_nth_other. intros ->. apply Hj. now left.
Qed.

Lemma nth_error_eq_ext {A : Type} (l l' : list A) :
  (forall i, nth_error l i = nth_error l' i) -> l = l'.
Proof.
  revert l'. induction l as [| a l IH]; intros [| b l'] H.
  - reflexivity.
  - specialize (H 0%nat). discriminate.
  - specialize (H 0%nat). discriminate.
  - pose proof (H 0%nat) as H0. simpl in H0. injection H0 as ->.
    f_equal. apply IH. intros i. apply (H (S i)).
Qed.

Lemma blank_rebuild (r r' : row) :
  blank_CompetitivePrice r' = blank_CompetitivePrice r ->
  r' = set_CompetitivePrice (CompetitivePrice r') r.
Proof.
  destruct r, r'. unfold blank_CompetitivePrice, set_CompetitivePrice.
  cbn. intros H. injection H. intros. subst. reflexivity.
Qed.

(** A table is its blanked rows with its [CompetitivePrice] column put back. *)
Lemma assign_blank (df final : DataFrame) :
  map blank_CompetitivePrice final = map blank_CompetitivePrice df ->
  final = assign_CompetitivePrice df (map CompetitivePrice final).
Proof.
  unfold assign_CompetitivePrice.
  revert df. induction final as [| r' final IH]; intros [| r df] H;
    cbn [map combine] in *; try discriminate; [reflexivity |].
  pose proof (f_equal (hd (blank_CompetitivePrice r)) H) as Hr.
  pose proof (f_equal (@tl row) H) as Hrest.
  cbn [hd tl] in Hr, Hrest. cbn [fst snd]. f_equal.
  - now apply blank_rebuild.
  - now apply IH.
Qed.

(** C1: the competitive pass reads demand prices only.  Writing a
    competitive price into the table changes no lot's competitive price; the
    list the notebook's row-by-row comprehension builds is the list of the
    two-phase computation over the frozen snapshot; and visiting the lots in
    any order, each result written into the shared table before the next
    lot is priced, yields the same table, which is the notebook's. *)
Theorem competitive_pass_is_two_phase_and_order_independent :
  (forall (i j : nat) (p : pyfloat) (df : DataFrame) (radius_km : R),
      competitive_price i (set_at j (set_CompetitivePrice p) df) radius_km
      = competitive_price i df radius_km)
  /\ (forall df : DataFrame,
         capacities_positive df ->
         competitive_prices df = Ok (two_phase default_radius_km df))
  /\ (forall (df : DataFrame) (order : list nat),
         capacities_positive df ->
         Permutation order (seq 0 (List.length df)) ->
         exists final,
           row_by_row default_radius_km order df = Ok final
           /\ map CompetitivePrice final = two_phase default_radius_km df
           /\ final = assign_CompetitivePrice df (two_phase default_radius_km df)).
Proof.
  split; [exact competitive_price_frame |]. split.
  - intros df Hcap. now apply competitive_prices_two_phase.
  - intros df order Hcap Hperm.
    destruct (row_by_row_invariant default_radius_km df Hcap order df eq_refl)
      as [final [Hrun [Hbl [Hin _]]]].
    { intros i Hi. apply (Permutation_in _ Hperm) in Hi.
      apply in_seq in Hi. lia. }
    assert (Hcol : map CompetitivePrice final = two_phase default_radius_km df).
    { apply nth_error_eq_ext. intros i.
      destruct (Nat.lt_ge_cases i (List.length df)) as [Hlt | Hge].
      - apply Hin. apply (Permutation_in _ (Permutation_sym Hperm)).
        apply in_seq. lia.
      - rewrite (proj2 (nth_error_None _ _)),
                (proj2 (nth_error_None _ _)); [reflexivity | |].
        + now rewrite two_phase_length.
        + now rewrite length_map, (same_blank_length df final Hbl). }
    exists final. split; [exact Hrun |]. split; [exact Hcol |].
    rewrite <- Hcol. now apply assign_blank.
Qed.

Lemma competitive_pass_is_two_phase_and_order_independent_witness :
  competitive_prices [lot_X; lot_near 15; lot_far]
  = Ok (two_phase default_radius_km [lot_X; lot_near 15; lot_far])
  /\ exists final,
       row_by_row default_radius_km [2; 0; 1]%nat [lot_X; lot_near 15; lot_far]
       = Ok final
       /\ map CompetitivePrice final
          = two_phase default_radius_km [lot_X; lot_near 15; lot_far]
       /\ final
          = assign_CompetitivePrice [lot_X; lot_near 15; lot_far]
              (two_phase default_radius_km [lot_X; lot_near 15; lot_far]).
Proof.
  assert (Hcap : capacities_positive [lot_X; lot_near 15; lot_far])
    by (repeat constructor).
  split.
  - apply (proj1 (proj2 competitive_pass_is_two_phase_and_order_independent)).
    exact Hcap.
  - apply (proj2 (proj2 competitive_pass_is_two_phase_and_order_independent)).
    + exact Hcap.
    + simpl. apply Permutation_sym.
      apply (perm_trans (l' := [1; 0; 2]%nat)).
      * apply perm_swap.
      * apply (perm_trans (l' := [1; 2; 0]%nat)).
        -- apply perm_skip. apply perm_swap.
        -- apply (perm_trans (l' := [2; 1; 0]%nat)).
           ++ apply perm_swap.
           ++ apply perm_skip. apply perm_swap.
Defined.

(** ** The notebook prices every reading of a batch *)

Lemma mapM_total {A B : Type} (f : A -> result B) (g : A -> B) (l : list A) :
  Forall (fun a => f a = Ok (g a)) l -> mapM f l = Ok (map g l).
Proof.
  induction 1 as [| a l Ha _ IH]; simpl; [reflexivity |].
  now rewrite Ha, IH.
Qed.

Lemma series_map_unrecognized (d : list (string * R)) (key : string) :
  recognized d key = false -> series_map d key = NaN.
Proof.
  unfold recognized. induction d as [| [k v] d IH]; simpl; [reflexivity |].
  destruct (String.eqb k key); simpl; [discriminate | exact IH].
Qed.



Lemma apply_linear_pricing_model_total (df : DataFrame) :
  capacities_positive df ->
  apply_linear_pricing_model df
  = Ok (map (fun r =>
               set_LinearPrice
                 (Fin (round2 (default_base_price
                               + default_alpha
                                 * (IZR (Occupancy r) / IZR (Capacity r))))) r)
            df).
Proof.
  intros Hcap. unfold apply_linear_pricing_model. apply mapM_total.
  apply (Forall_impl _ (P := fun r => (0 < Capacity r)%Z)); [| exact Hcap].
  intros r Hr. unfold linear_pricing_model.
  now rewrite (truediv_positive _ _ Hr).
Qed.

Lemma assign_rows (l : DataFrame) :
  forall prices,
    List.length prices = List.length l ->
    Forall2 (fun r o => exists c, o = set_CompetitivePrice c (priced r))
            l (assign_CompetitivePrice (map priced l) prices).
Proof.
  unfold assign_CompetitivePrice.
  induction l as [| r l IH]; intros [| p prices] Hlen; simpl in *;
    try discriminate; constructor.
  - exists p. reflexivity.
  - apply IH. lia.
Qed.

Lemma notebook_rows (batch : DataFrame) :
  capacities_positive batch ->
  exists out,
    notebook batch = Ok out
    /\ Forall2 (fun r o => exists c, o = set_CompetitivePrice c (priced r))
               batch out.
Proof.
  intros Hcap. unfold notebook.
  assert (Henc : capacities_positive (map encode batch)).
  { unfold capacities_positive in *. rewrite Forall_map.
    apply (Forall_impl _ (P := fun r => (0 < Capacity r)%Z)); auto. }
  rewrite (apply_linear_pricing_model_total _ Henc). cbn [bind].
  unfold apply_demand_based_price. rewrite !map_map.
  assert (Hpriced : forall l : DataFrame,
             map (fun r =>
                    set_DemandPrice
                      (demand_based_price
                         (set_LinearPrice
                            (Fin (round2 (default_base_price
                                          + default_alpha
                                            * (IZR (Occupancy (encode r))
                                               / IZR (Capacity (encode r))))))
                            (encode r))
                         default_base_price default_lambd)
                      (set_LinearPrice
                         (Fin (round2 (default_base_price
                                       + default_alpha
                                         * (IZR (Occupancy (encode r))
                                            / IZR (Capacity (encode r))))))
                         (encode r))) l
             = map priced l) by reflexivity.
  rewrite Hpriced.
  assert (Hcap' : capacities_positive (map priced batch)).
  { unfold capacities_positive in *. rewrite Forall_map.
    apply (Forall_impl _ (P := fun r => (0 < Capacity r)%Z)); auto. }
  unfold competitive_prices.
  rewrite (competitive_prices_two_phase _ default_radius_km Hcap').
  cbn [bind]. eexists. split; [reflexivity |].
  apply assign_rows. now rewrite two_phase_length, length_map.
Qed.


(** *** The run from the columns of the data set *)

Lemma encode_normalized (df : DataFrame) :
  forall cols : list (pyfloat * pyfloat),
    map (fun rc => set_normalized (fst (snd rc)) (snd (snd rc)) (fst rc))
        (combine (map encode df) cols)
    = map encode
          (map (fun rc => set_normalized (fst (snd rc)) (snd (snd rc)) (fst rc))
               (combine df cols)).
Proof.
  induction df as [| r df IH]; intros [| c cols]; try reflexivity.
  cbn [map combine fst snd]. now rewrite IH.
Qed.

(** The category maps and the scaler touch different columns: the run is
    the scaler's assignment followed by [notebook]. *)
Lemma run_all_cells_notebook (fit_transform : scaler) (batch : DataFrame) :
  run_all_cells fit_transform batch
  = (cols <- fit_transform (map scaler_input batch) ;;
     df <- assign_normalized batch cols ;;
     notebook df).
Proof.
  unfold run_all_cells. rewrite map_map.
  change (map (fun x => scaler_input (encode x)) batch)
    with (map scaler_input batch).
  destruct (fit_transform (map scaler_input batch)) as [cols | e];
    [| reflexivity].
  cbn [bind]. unfold assign_normalized. rewrite length_map.
  destruct (Nat.eqb (List.length cols) (List.length batch)); [| reflexivity].
  cbn [bind]. unfold notebook. now rewrite encode_normalized.
Qed.

Lemma Forall2_map_left {A B C : Type} (f : A -> B) (P : B -> C -> Prop)
    (l : list A) (l' : list C) :
  Forall2 P (map f l) l' -> Forall2 (fun a c => P (f a) c) l l'.
Proof.
  revert l'. induction l as [| a l IH]; intros l' H; inversion H; subst;
    constructor; auto.
Qed.

Lemma run_all_cells_rows (fit_transform : scaler) (batch : DataFrame)
    (cols : list (pyfloat * pyfloat)) :
  capacities_positive batch ->
  fit_transform (map scaler_input batch) = Ok cols ->
  List.length cols = List.length batch ->
  exists out,
    run_all_cells fit_transform batch = Ok out
    /\ Forall2 (fun rc o =>
                  exists c,
                    o = set_CompetitivePrice c
                          (priced (set_normalized (fst (snd rc)) (snd (snd rc))
                                                  (fst rc))))
               (combine batch cols) out.
Proof.
  intros Hcap Hfit Hlen.
  rewrite run_all_cells_notebook, Hfit. cbn [bind].
  unfold assign_normalized. rewrite Hlen, Nat.eqb_refl. cbn [bind].
  set (f := fun rc : row * (pyfloat * pyfloat) =>
              set_normalized (fst (snd rc)) (snd (snd rc)) (fst rc)).
  assert (Hcap' : capacities_positive (map f (combine batch cols))).
  { unfold capacities_positive in *. rewrite Forall_map.
    apply Forall_forall. intros [r c] Hin. apply in_combine_l in Hin.
    rewrite Forall_forall in Hcap. exact (Hcap r Hin). }
  destruct (notebook_rows _ Hcap') as [out [Hrun Hrows]].
  exists out. split; [exact Hrun |].
  now apply Forall2_map_left in Hrows.
Qed.



Lemma min_max_scale_length (col : list pyfloat) :
  List.length (min_max_scale col) = List.length col.
Proof.
  unfold min_max_scale. destruct (numbers col); [reflexivity |].
  cbv zeta. apply length_map.
Qed.

Lemma min_max_scaler_total (batch : DataFrame) :
  batch <> [] ->
  capacities_positive batch ->
  exists cols,
    min_max_scaler (map scaler_input batch) = Ok cols
    /\ List.length cols = List.length batch.
Proof.
  intros Hne Hcap. unfold min_max_scaler.
  destruct (map scaler_input batch) as [| x l] eqn:E;
    [destruct batch; [congruence | discriminate] |].
  rewrite <- E. clear E x l.
  rewrite (mapM_total occupancy_rate
             (fun ocq => Fin (IZR (fst (fst ocq)) / IZR (snd (fst ocq))))).
  - cbn [bind]. eexists. split; [reflexivity |].
    rewrite length_combine, !min_max_scale_length, !length_map. lia.
  - apply Forall_map. unfold capacities_positive in Hcap.
    apply (Forall_impl _ (P := fun r => (0 < Capacity r)%Z)); [| exact Hcap].
    intros r Hr. unfold occupancy_rate, scaler_input. cbn [fst snd].
    destruct (Z.eqb_spec (Capacity r) 0) as [Hz | _]; [lia | reflexivity].
Qed.






(** * Further properties of the pricing functions *)

(** ** Rounding is monotone and exact to half a cent *)

Lemma round_half_even_range (x : R) :
  (Int_part x <= round_half_even x <= Int_part x + 1)%Z.
Proof.
  unfold round_half_even.
  destruct (Rlt_dec _ _); [lia |].
  destruct (Rlt_dec _ _); [lia |].
  destruct (Z.even _); lia.
Qed.

Lemma round_half_even_mono (x y : R) :
  x <= y -> (round_half_even x <= round_half_even y)%Z.
Proof.
  intros Hxy.
  pose proof (Int_part_bounds x) as [Hx1 Hx2].
  pose proof (Int_part_bounds y) as [Hy1 Hy2].
  assert (Hnm : (Int_part x <= Int_part y)%Z).
  { apply Z.lt_succ_r, lt_IZR. rewrite succ_IZR. lra. }
  destruct (Z.eq_dec (Int_part x) (Int_part y)) as [Heq | Hne].
  - unfold round_half_even. rewrite <- Heq in *.
    set (n := Int_part x) in *.
    destruct (Rlt_dec (x - IZR n) (1 / 2)), (Rlt_dec (y - IZR n) (1 / 2));
      try lia; try (exfalso; lra).
    + destruct (Rlt_dec (1 / 2) (y - IZR n)); [lia |].
      destruct (Z.even n); lia.
    + destruct (Rlt_dec (1 / 2) (x - IZR n)), (Rlt_dec (1 / 2) (y - IZR n));
        try lia; try (exfalso; lra).
      destruct (Z.even n); lia.
  - pose proof (round_half_even_range x). pose proof (round_half_even_range y).
    lia.
Qed.

Lemma round_half_even_error (x : R) :
  - (1 / 2) <= IZR (round_half_even x) - x <= 1 / 2.
Proof.
  pose proof (Int_part_bounds x) as [H1 H2].
  unfold round_half_even. set (n := Int_part x) in *.
  destruct (Rlt_dec (x - IZR n) (1 / 2)); [lra |].
  destruct (Rlt_dec (1 / 2) (x - IZR n)); [rewrite plus_IZR; lra |].
  destruct (Z.even n); [lra | rewrite plus_IZR; lra].
Qed.

Lemma round2_mono (x y : R) : x <= y -> round2 x <= round2 y.
Proof.
  intros H. unfold round2.
  assert (Hm : (round_half_even (x * 100) <= round_half_even (y * 100))%Z)
    by (apply round_half_even_mono; lra).
  apply IZR_le in Hm. lra.
Qed.

Lemma round2_error (x : R) : Rabs (round2 x - x) <= 0.005.
Proof.
  unfold round2. pose proof (round_half_even_error (x * 100)) as H.
  apply Rabs_le. lra.
Qed.

Lemma round2_idempotent (x : R) : round2 (round2 x) = round2 x.
Proof. unfold round2 at 2 3. apply round2_hundredths. Qed.

(** ** Linear pricing: monotone, bounded on a lot that is not over capacity *)

Lemma occupancy_rate_mono (occupancy occupancy' capacity : Z) :
  (0 < capacity)%Z -> (occupancy <= occupancy')%Z ->
  IZR occupancy / IZR capacity <= IZR occupancy' / IZR capacity.
Proof.
  intros Hc Ho. apply IZR_lt in Hc. apply IZR_le in Ho.
  apply Rmult_le_compat_r; [| exact Ho].
  left. now apply Rinv_0_lt_compat.
Qed.

(** X1: with a positive capacity and a non-negative [alpha], a fuller lot is
    never cheaper: the linear price is non-decreasing in the occupancy,
    rounding included. *)
Theorem linear_pricing_model_monotone :
  forall (occupancy occupancy' capacity : Z) (base_price alpha : R),
    (0 < capacity)%Z -> 0 <= alpha -> (occupancy <= occupancy')%Z ->
    exists p p',
      linear_pricing_model occupancy capacity base_price alpha = Ok p
      /\ linear_pricing_model occupancy' capacity base_price alpha = Ok p'
      /\ p <= p'.
Proof.
  intros occupancy occupancy' capacity base_price alpha Hc Ha Ho.
  unfold linear_pricing_model. rewrite !(truediv_positive _ _ Hc). simpl.
  do 2 eexists. split; [reflexivity |]. split; [reflexivity |].
  apply round2_mono.
  pose proof (occupancy_rate_mono _ _ _ Hc Ho). nra.
Qed.

Lemma linear_pricing_model_monotone_witness :
  exists p p',
    linear_pricing_model 50 100 10 5 = Ok p
    /\ linear_pricing_model 80 100 10 5 = Ok p'
    /\ p <= p'.
Proof.
  apply (linear_pricing_model_monotone 50 80 100 10 5); [lia | lra | lia].
Defined.

(** X2: with the default base price and alpha, a lot holding between 0 and
    its capacity is priced between 10.0 and 15.0, and a lot over its
    capacity at 15.0 or more. *)
Theorem linear_pricing_model_default_range :
  forall occupancy capacity : Z,
    (0 < capacity)%Z ->
    exists p,
      linear_pricing_model occupancy capacity default_base_price default_alpha
      = Ok p
      /\ ((0 <= occupancy <= capacity)%Z -> 10 <= p <= 15)
      /\ ((capacity <= occupancy)%Z -> 15 <= p).
Proof.
  intros occupancy capacity Hc.
  unfold linear_pricing_model. rewrite (truediv_positive _ _ Hc). simpl.
  eexists. split; [reflexivity |].
  unfold default_base_price, default_alpha.
  assert (Hcap : IZR capacity / IZR capacity = 1).
  { apply IZR_lt in Hc. field. lra. }
  assert (Hzero : IZR 0 / IZR capacity = 0) by (unfold Rdiv; ring).
  split.
  - intros [H0 H1].
    pose proof (occupancy_rate_mono _ _ _ Hc H0) as Hlo.
    pose proof (occupancy_rate_mono _ _ _ Hc H1) as Hhi.
    rewrite Hzero in Hlo. rewrite Hcap in Hhi.
    destruct (round2_between 1000 1500
                (10.0 + 5.0 * (IZR occupancy / IZR capacity))); lra.
  - intros H1.
    pose proof (occupancy_rate_mono _ _ _ Hc H1) as Hhi. rewrite Hcap in Hhi.
    replace 15 with (round2 (IZR 1500 / 100)) by (rewrite round2_hundredths; lra).
    apply round2_mono. lra.
Qed.

Lemma linear_pricing_model_default_range_witness :
  exists p,
    linear_pricing_model 50 100 default_base_price default_alpha = Ok p
    /\ ((0 <= 50 <= 100)%Z -> 10 <= p <= 15)
    /\ ((100 <= 50)%Z -> 15 <= p).
Proof.
  apply (linear_pricing_model_default_range 50 100). lia.
Defined.

(** X3: the linear price is within half a cent of the unrounded formula
    [base_price + alpha * occupancy / capacity]. *)
Theorem linear_pricing_model_rounding_error :
  forall (occupancy capacity : Z) (base_price alpha : R),
    (0 < capacity)%Z ->
    exists p,
      linear_pricing_model occupancy capacity base_price alpha = Ok p
      /\ Rabs (p - (base_price + alpha * (IZR occupancy / IZR capacity)))
         <= 0.005.
Proof.
  intros occupancy capacity base_price alpha Hc.
  unfold linear_pricing_model. rewrite (truediv_positive _ _ Hc). simpl.
  eexists. split; [reflexivity |]. apply round2_error.
Qed.

Lemma linear_pricing_model_rounding_error_witness :
  exists p,
    linear_pricing_model 1 3 10 5 = Ok p
    /\ Rabs (p - (10 + 5 * (IZR 1 / IZR 3))) <= 0.005.
Proof.
  apply (linear_pricing_model_rounding_error 1 3 10 5). lia.
Defined.

(** ** Demand pricing: monotone, and the clamp on expected readings *)

Lemma Rmin_Rmax_mono (lo hi x y : R) :
  x <= y -> Rmin (Rmax x lo) hi <= Rmin (Rmax y lo) hi.
Proof.
  intros H. now apply Rle_min_compat_r, Rle_max_compat_r.
Qed.

Lemma weighted_sum_mono (r r' : row) :
  features_le r r' ->
  exists w w', weighted_sum r = Fin w /\ weighted_sum r' = Fin w' /\ w <= w'.
Proof.
  unfold features_le, weighted_sum, fle_num.
  destruct (NormalizedOccupancyRate r), (NormalizedOccupancyRate r'),
    (NormalizedQueueLength r), (NormalizedQueueLength r'),
    (TrafficConditionEncoded r), (TrafficConditionEncoded r'),
    (VehicleTypeEncoded r), (VehicleTypeEncoded r'),
    (IsSpecialDay r), (IsSpecialDay r'); simpl; try tauto.
  intros (H1 & H2 & H3 & H4 & H5).
  do 2 eexists. split; [reflexivity |]. split; [reflexivity |]. lra.
Qed.

Lemma demand_price_of_sum (r : row) (base_price lambd w : R) :
  weighted_sum r = Fin w ->
  demand_based_price r base_price lambd
  = Fin (round2 (Rmin (Rmax (base_price * (1 + lambd * Rmin (Rmax w 0) 1)) 5)
                      20)).
Proof.
  intros Hw. rewrite demand_based_price_eq_spec.
  unfold demand_price_spec, demand_score. rewrite Hw, clamp_Fin.
  simpl fmul. simpl fadd. simpl fmul. rewrite clamp_Fin. reflexivity.
Qed.

(** X4: with a non-negative base price and lambda, the demand price is
    non-decreasing in the five features: a row that is at most another one
    in every feature is priced at most as high, clamps and rounding
    included. *)
Theorem demand_based_price_monotone :
  forall (r r' : row) (base_price lambd : R),
    0 <= base_price -> 0 <= lambd -> features_le r r' ->
    exists p p',
      demand_based_price r base_price lambd = Fin p
      /\ demand_based_price r' base_price lambd = Fin p'
      /\ p <= p'.
Proof.
  intros r r' base_price lambd Hb Hl Hle.
  destruct (weighted_sum_mono r r' Hle) as [w [w' [Hw [Hw' Hww]]]].
  rewrite (demand_price_of_sum _ _ _ _ Hw), (demand_price_of_sum _ _ _ _ Hw').
  do 2 eexists. split; [reflexivity |]. split; [reflexivity |].
  apply round2_mono, Rmin_Rmax_mono.
  pose proof (Rmin_Rmax_mono 0 1 w w' Hww) as Hd.
  apply Rmult_le_compat_l; [exact Hb |].
  apply Rplus_le_compat_l, Rmult_le_compat_l; assumption.
Qed.

Lemma demand_based_price_monotone_witness :
  exists p p',
    demand_based_price (encode scenario_reading) 10 0.5 = Fin p
    /\ demand_based_price (encode (reading_at "W" 1 "truck")) 10 0.5 = Fin p'
    /\ p <= p'.
Proof.
  apply (demand_based_price_monotone
           (encode scenario_reading) (encode (reading_at "W" 1 "truck")) 10 0.5);
    [lra | lra |].
  unfold features_le. simpl. repeat split; lra.
Defined.

Lemma vehicle_code_cases (key : string) :
  recognized vehicle_type_codes key = true ->
  exists v, series_map vehicle_type_codes key = Fin v
            /\ (v = 1.0 \/ v = 0.5 \/ v = 1.5).
Proof.
  unfold recognized, vehicle_type_codes. cbn [existsb series_map fst].
  destruct (String.eqb "car" key); [intros _; exists 1.0; auto |].
  destruct (String.eqb "bike" key); [intros _; exists 0.5; auto |].
  destruct (String.eqb "truck" key); [intros _; exists 1.5; auto |].
  discriminate.
Qed.

Lemma traffic_code_cases (key : string) :
  recognized traffic_condition_codes key = true ->
  exists t, series_map traffic_condition_codes key = Fin t
            /\ (t = 0 \/ t = 1 \/ t = 2).
Proof.
  unfold recognized, traffic_condition_codes. cbn [existsb series_map fst].
  destruct (String.eqb "low" key); [intros _; exists 0; auto |].
  destruct (String.eqb "medium" key); [intros _; exists 1; auto |].
  destruct (String.eqb "high" key); [intros _; exists 2; auto |].
  discriminate.
Qed.

(** X5: on a reading as the preprocessing expects it, the weighted sum is
    already between 1/30 and 1 (the weights add up to 1, a bike on a calm
    empty lot gives the minimum), so the clamp to [0, 1] changes nothing;
    and with the default parameters the price is between 10.17 and 15.0. *)
Theorem demand_clamp_inert_on_expected_readings :
  forall r : row,
    expected_reading r ->
    exists w,
      weighted_sum (encode r) = Fin w
      /\ 1 / 30 <= w <= 1
      /\ demand_score (encode r) = Fin w
      /\ in_range 10.17 15
           (demand_based_price (encode r) default_base_price default_lambd).
Proof.
  intros r (Ho & Hq & Hv & Ht & Hs).
  destruct (vehicle_code_cases _ Hv) as [v [Hv' Hvc]].
  destruct (traffic_code_cases _ Ht) as [t [Ht' Htc]].
  assert (Hsum : exists w, weighted_sum (encode r) = Fin w /\ 1 / 30 <= w <= 1).
  { unfold weighted_sum.
    change (VehicleTypeEncoded (encode r))
      with (series_map vehicle_type_codes (VehicleType r)).
    change (TrafficConditionEncoded (encode r))
      with (series_map traffic_condition_codes (TrafficConditionNearby r)).
    change (NormalizedOccupancyRate (encode r)) with (NormalizedOccupancyRate r).
    change (NormalizedQueueLength (encode r)) with (NormalizedQueueLength r).
    change (IsSpecialDay (encode r)) with (IsSpecialDay r).
    rewrite Hv', Ht'.
    destruct (NormalizedOccupancyRate r) as [o |]; [| contradiction].
    destruct (NormalizedQueueLength r) as [q |]; [| contradiction].
    simpl in Ho, Hq.
    destruct Hs as [-> | ->]; simpl; eexists; (split; [reflexivity |]);
      destruct Hvc as [-> | [-> | ->]]; destruct Htc as [-> | [-> | ->]]; lra. }
  destruct Hsum as [w [Hw Hrange]].
  exists w. split; [exact Hw |]. split; [exact Hrange |].
  assert (Hprice : demand_based_price (encode r) default_base_price default_lambd
                   = Fin (round2 (10 * (1 + 0.5 * w)))).
  { rewrite (demand_price_of_sum _ _ _ _ Hw).
    unfold default_base_price, default_lambd.
    rewrite (Rmin_Rmax_inert 0 1 w) by lra.
    rewrite Rmin_Rmax_inert by lra. do 2 f_equal. lra. }
  split.
  - unfold demand_score. rewrite Hw, clamp_Fin.
    now rewrite Rmin_Rmax_inert by lra.
  - rewrite Hprice. simpl.
    assert (Hlow : round2 (10 * (1 + 0.5 * (1 / 30))) = IZR 1017 / 100)
      by (apply round2_near; lra).
    pose proof (round2_mono (10 * (1 + 0.5 * (1 / 30))) (10 * (1 + 0.5 * w))
                  ltac:(lra)) as Hm.
    destruct (round2_between 1000 1500 (10 * (1 + 0.5 * w))); lra.
Qed.

Lemma demand_clamp_inert_on_expected_readings_witness :
  exists w,
    weighted_sum (encode scenario_reading) = Fin w
    /\ 1 / 30 <= w <= 1
    /\ demand_score (encode scenario_reading) = Fin w
    /\ in_range 10.17 15
         (demand_based_price (encode scenario_reading)
                             default_base_price default_lambd).
Proof.
  apply (demand_clamp_inert_on_expected_readings scenario_reading).
  unfold expected_reading. simpl.
  repeat split; try lra. left. reflexivity.
Defined.

(** X6: the demand saturates.  With the default parameters, every row whose
    weighted sum is 1 or more costs exactly 15.0, and every row whose
    weighted sum is 0 or less costs exactly 10.0. *)
Theorem demand_based_price_saturates :
  forall (r : row) (w : R),
    weighted_sum r = Fin w ->
    (1 <= w ->
     demand_based_price r default_base_price default_lambd = Fin 15)
    /\ (w <= 0 ->
        demand_based_price r default_base_price default_lambd = Fin 10).
Proof.
  intros r w Hw. rewrite (demand_price_of_sum _ _ _ _ Hw).
  unfold default_base_price, default_lambd. split; intros H.
  - replace (Rmin (Rmax w 0) 1) with 1
      by (unfold Rmin, Rmax; destruct (Rle_dec w 0); destruct (Rle_dec _ 1); lra).
    rewrite Rmin_Rmax_inert by lra.
    replace (10.0 * (1 + 0.5 * 1)) with (IZR 1500 / 100) by lra.
    rewrite round2_hundredths. f_equal. lra.
  - replace (Rmin (Rmax w 0) 1) with 0
      by (unfold Rmin, Rmax; destruct (Rle_dec w 0); destruct (Rle_dec _ 1); lra).
    rewrite Rmin_Rmax_inert by lra.
    replace (10.0 * (1 + 0.5 * 0)) with (IZR 1000 / 100) by lra.
    rewrite round2_hundredths. f_equal. lra.
Qed.

Lemma demand_based_price_saturates_witness :
  demand_based_price
    (mkRow "A" 50 100 2 "car" "medium" (Fin 0) 0 0 (Fin 3) (Fin 0.2)
           (Fin 1) (Fin 1) NaN NaN NaN)
    default_base_price default_lambd = Fin 15.
Proof.
  apply (proj1 (demand_based_price_saturates
                  (mkRow "A" 50 100 2 "car" "medium" (Fin 0) 0 0 (Fin 3) (Fin 0.2)
                         (Fin 1) (Fin 1) NaN NaN NaN)
                  _ eq_refl)).
  lra.
Defined.

(** ** The encoding dicts as lookups *)

Lemma series_map_recognized (d : list (string * R)) (key : string) :
  recognized d key = true -> exists v, series_map d key = Fin v /\ In (key, v) d.
Proof.
  unfold recognized. induction d as [| [k v] d IH]; cbn [existsb series_map fst].
  - discriminate.
  - destruct (String.eqb_spec k key) as [-> | Hne].
    + intros _. exists v. split; [reflexivity | now left].
    + cbn [orb]. intros H. destruct (IH H) as [v' [Hv' Hin]].
      exists v'. split; [exact Hv' | now right].
Qed.

(** X7: [Series.map] with a dict is a lookup: the result is NaN exactly for
    a value that is no key of the dict, a number it returns is bound to
    that value in the dict, and with distinct keys every binding of the dict
    is found. *)
Theorem series_map_is_dict_lookup :
  forall (d : list (string * R)) (key : string),
    (series_map d key = NaN <-> recognized d key = false)
    /\ (forall v, series_map d key = Fin v -> In (key, v) d)
    /\ (NoDup (map fst d) ->
        forall v, In (key, v) d -> series_map d key = Fin v).
Proof.
  intros d key. split; [| split].
  - split; [| apply series_map_unrecognized].
    intros Hnan. destruct (recognized d key) eqn:E; [| reflexivity].
    destruct (series_map_recognized d key E) as [v [Hv _]]. congruence.
  - intros v Hv. destruct (recognized d key) eqn:E.
    + destruct (series_map_recognized d key E) as [v' [Hv' Hin]].
      rewrite Hv in Hv'. injection Hv' as <-. exact Hin.
    + rewrite (series_map_unrecognized d key E) in Hv. discriminate.
  - induction d as [| [k w] d IH]; intros Hnd v Hin; cbn [series_map].
    + destruct Hin.
    + cbn [map fst] in Hnd. inversion Hnd as [| ? ? Hnotin Hnd']; subst.
      destruct Hin as [Heq | Hin].
      * injection Heq as -> ->. now rewrite String.eqb_refl.
      * destruct (String.eqb_spec k key) as [-> | Hne].
        -- exfalso. apply Hnotin.
           change key with (fst (key, v)). now apply in_map.
        -- now apply IH.
Qed.

Lemma series_map_is_dict_lookup_witness :
  series_map vehicle_type_codes "truck" = Fin 1.5.
Proof.
  apply (proj2 (proj2 (series_map_is_dict_lookup vehicle_type_codes "truck"))).
  - unfold vehicle_type_codes. cbn [map fst].
    repeat constructor; cbn [In]; intros H;
      repeat (destruct H as [H | H]; [discriminate |]); exact H.
  - unfold vehicle_type_codes. right. right. left. reflexivity.
Defined.

(** ** When the competitive pass raises *)

Lemma neighbors_loop_result (lat1 lon1 : R) (index : nat) (radius_km : R)
    (rows : list (nat * row)) :
  forall acc,
    (Exists (fun ir => selected lat1 lon1 index radius_km ir = true
                       /\ Capacity (snd ir) = 0%Z) rows
     /\ neighbors_loop lat1 lon1 index radius_km rows acc
        = Raise ZeroDivisionError)
    \/ (Forall (fun ir => selected lat1 lon1 index radius_km ir = true ->
                          Capacity (snd ir) <> 0%Z) rows
        /\ neighbors_loop lat1 lon1 index radius_km rows acc
           = Ok (acc ++ map (fun ir => neighbor_entry (snd ir))
                            (filter (selected lat1 lon1 index radius_km) rows))).
Proof.
  induction rows as [| [i r] rest IH]; intros acc.
  - right. split; [constructor |]. simpl. now rewrite app_nil_r.
  - cbn [neighbors_loop filter].
    assert (Hs : selected lat1 lon1 index radius_km (i, r)
                 = negb (Nat.eqb i index)
                   && Rleb (haversine lat1 lon1 (Latitude r) (Longitude r))
                           radius_km) by reflexivity.
    destruct (Nat.eqb i index); cbn [negb andb] in Hs.
    + rewrite Hs. destruct (IH acc) as [[Hex Hr] | [Hall Hr]].
      * left. split; [now apply Exists_cons_tl | exact Hr].
      * right. split; [| exact Hr].
        constructor; [rewrite Hs; discriminate | exact Hall].
    + destruct (Rleb _ radius_km) eqn:Hle; rewrite Hs.
      * unfold truediv. destruct (Z.eqb_spec (Capacity r) 0) as [Hz | Hnz].
        -- left. split; [| reflexivity]. apply Exists_cons_hd.
           split; [exact Hs | exact Hz].
        -- cbn [bind map snd].
           destruct (IH (acc ++ [(DemandPrice r,
                                  Fin (IZR (Occupancy r) / IZR (Capacity r)))]))
             as [[Hex Hr] | [Hall Hr]].
           ++ left. split; [now apply Exists_cons_tl | exact Hr].
           ++ right. split; [constructor; [intros _; exact Hnz | exact Hall] |].
              rewrite Hr, <- app_assoc. reflexivity.
      * destruct (IH acc) as [[Hex Hr] | [Hall Hr]].
        -- left. split; [now apply Exists_cons_tl | exact Hr].
        -- right. split; [| exact Hr].
           constructor; [rewrite Hs; discriminate | exact Hall].
Qed.

Lemma selected_is_neighbor (own : row) (index : nat) (radius_km : R)
    (j : nat) (r : row) :
  selected (Latitude own) (Longitude own) index radius_km (j, r) = true
  <-> is_neighbor own index radius_km j r.
Proof.
  unfold selected, is_neighbor. cbn [fst snd].
  rewrite andb_true_iff, negb_true_iff, Nat.eqb_neq, Rleb_spec. reflexivity.
Qed.

Lemma competitive_price_KeyError_lemma (index : nat) (df : DataFrame)
    (radius_km : R) :
  competitive_price index df radius_km = Raise KeyError
  <-> (List.length df <= index)%nat.
Proof.
  unfold competitive_price, loc. split.
  - destruct (nth_error df index) as [own |] eqn:Hown.
    + cbn [bind].
      destruct (neighbors_loop_result (Latitude own) (Longitude own) index
                  radius_km (iterrows df) []) as [[_ ->] | [_ ->]].
      * discriminate.
      * cbn [bind].
        destruct (_ ++ _); [discriminate |].
        destruct (_ && _); [discriminate |].
        destruct (flt _ _); discriminate.
    + intros _. now apply nth_error_None.
  - intros H. apply nth_error_None in H. now rewrite H.
Qed.

Lemma competitive_price_not_ValueError (index : nat) (df : DataFrame)
    (radius_km : R) :
  competitive_price index df radius_km <> Raise ValueError.
Proof.
  unfold competitive_price, loc.
  destruct (nth_error df index) as [own |]; [| discriminate].
  cbn [bind].
  destruct (neighbors_loop_result (Latitude own) (Longitude own) index
              radius_km (iterrows df) []) as [[_ ->] | [_ ->]].
  - discriminate.
  - cbn [bind].
    destruct (_ ++ _); [discriminate |].
    destruct (_ && _); [discriminate |].
    destruct (flt _ _); discriminate.
Qed.

(** X8: [competitive_price] raises [KeyError] exactly when the index is no
    label of the table; in particular it does so for every index on the
    empty table. *)
Theorem competitive_price_KeyError_iff :
  (forall (index : nat) (df : DataFrame) (radius_km : R),
      competitive_price index df radius_km = Raise KeyError
      <-> (List.length df <= index)%nat)
  /\ (forall (index : nat) (radius_km : R),
         competitive_price index [] radius_km = Raise KeyError).
Proof.
  split; [exact competitive_price_KeyError_lemma |].
  intros index radius_km. apply competitive_price_KeyError_lemma. simpl. lia.
Qed.

Lemma competitive_price_raises :
  forall (index : nat) (df : DataFrame) (radius_km : R) (own : row),
    nth_error df index = Some own ->
    (competitive_price index df radius_km = Raise ZeroDivisionError
     <-> exists j r, nth_error df j = Some r
                     /\ is_neighbor own index radius_km j r
                     /\ Capacity r = 0%Z)
    /\ ((exists c, competitive_price index df radius_km = Ok c)
        <-> forall j r, nth_error df j = Some r ->
                        is_neighbor own index radius_km j r ->
                        Capacity r <> 0%Z).
Proof.
  intros index df radius_km own Hown.
  unfold competitive_price, loc. rewrite Hown. cbn [bind].
  destruct (neighbors_loop_result (Latitude own) (Longitude own) index
              radius_km (iterrows df) []) as [[Hex ->] | [Hall ->]];
    cbn [bind].
  - apply Exists_exists in Hex as [[j r] [Hin [Hsel Hz]]].
    apply In_iterrows in Hin. apply selected_is_neighbor in Hsel.
    split; split.
    + intros _. exists j, r. auto.
    + reflexivity.
    + intros [c Hc]. discriminate.
    + intros H. exfalso. now apply (H j r).
  - rewrite Forall_forall in Hall.
    match goal with
    | |- (?e = Raise ZeroDivisionError <-> _) /\ _ =>
        assert (Hok : exists c, e = Ok c)
    end.
    { destruct (_ ++ _); [eexists; reflexivity |]. cbv zeta.
      destruct (_ && _); [eexists; reflexivity |].
      destruct (flt _ _); eexists; reflexivity. }
    destruct Hok as [c Hc]. rewrite Hc.
    split; split.
    + discriminate.
    + intros [j [r [Hj [Hn Hz]]]]. exfalso.
      apply (Hall (j, r)); [now apply In_iterrows | | exact Hz].
      now apply selected_is_neighbor.
    + intros _ j r Hj Hn. apply (Hall (j, r)); [now apply In_iterrows |].
      now apply selected_is_neighbor.
    + intros _. exists c. reflexivity.
Qed.

(** X9: for a lot of the table, [competitive_price] raises
    [ZeroDivisionError] exactly when some other row within the radius has
    capacity 0, and returns a price otherwise: the lot's own capacity and
    the capacity of rows out of the radius are never divided by. *)
Theorem competitive_price_ZeroDivisionError_iff :
  forall (index : nat) (df : DataFrame) (radius_km : R) (own : row),
    nth_error df index = Some own ->
    (competitive_price index df radius_km = Raise ZeroDivisionError
     <-> exists j r, nth_error df j = Some r
                     /\ is_neighbor own index radius_km j r
                     /\ Capacity r = 0%Z)
    /\ ((exists c, competitive_price index df radius_km = Ok c)
        <-> forall j r, nth_error df j = Some r ->
                        is_neighbor own index radius_km j r ->
                        Capacity r <> 0%Z).
Proof.
  exact competitive_price_raises.
Qed.

Lemma competitive_price_ZeroDivisionError_iff_witness :
  (competitive_price 0 [lot_X; lot_far] 1 = Raise ZeroDivisionError
   <-> exists j r, nth_error [lot_X; lot_far] j = Some r
                   /\ is_neighbor lot_X 0 1 j r
                   /\ Capacity r = 0%Z)
  /\ ((exists c, competitive_price 0 [lot_X; lot_far] 1 = Ok c)
      <-> forall j r, nth_error [lot_X; lot_far] j = Some r ->
                      is_neighbor lot_X 0 1 j r ->
                      Capacity r <> 0%Z).
Proof.
  apply (competitive_price_ZeroDivisionError_iff 0 [lot_X; lot_far] 1 lot_X).
  reflexivity.
Defined.

(** X11: being a neighbour is mutual: the loop run for lot [i] selects row
    [j] exactly when the loop run for lot [j] selects row [i]. *)
Theorem neighbor_selection_symmetric :
  forall (i j : nat) (ri rj : row) (radius_km : R),
    selected (Latitude ri) (Longitude ri) i radius_km (j, rj)
    = selected (Latitude rj) (Longitude rj) j radius_km (i, ri).
Proof.
  intros i j ri rj radius_km. unfold selected. cbn [fst snd].
  now rewrite (Nat.eqb_sym j i), (haversine_sym (Latitude ri)).
Qed.

(** ** The haversine distance along a meridian and along the equator *)

Lemma haversine_unfold (lat1 lon1 lat2 lon2 : R) :
  haversine lat1 lon1 lat2 lon2
  = 6371 * 2 * asin (sqrt (haversine_a lat1 lon1 lat2 lon2)).
Proof. reflexivity. Qed.

Lemma haversine_equator (lon1 lon2 : R) :
  0 <= lon2 - lon1 <= 180 ->
  haversine 0 lon1 0 lon2 = 6371 * radians (lon2 - lon1).
Proof.
  intros [H0 H180]. rewrite haversine_unfold. unfold haversine_a.
  replace (0 - 0) with 0 by lra.
  rewrite radians_0. replace (0 / 2) with 0 by lra. rewrite sin_0, cos_0.
  set (d := radians (lon2 - lon1)).
  assert (Hd : 0 <= d / 2 <= PI / 2).
  { unfold d, radians. pose proof PI_RGT_0. split; nra. }
  replace (0 ^ 2 + 1 * 1 * sin (d / 2) ^ 2) with (sin (d / 2) ^ 2) by ring.
  rewrite sqrt_pow2.
  - rewrite asin_sin by lra. lra.
  - apply sin_ge_0; pose proof PI_RGT_0; lra.
Qed.

(** X14: along a meridian, and along the equator, the distance is the arc
    length: [6371 * radians(d)] km for two points [d] degrees apart,
    [d <= 180], whichever of the two comes first. *)
Theorem haversine_arc_length :
  (forall lat1 lat2 lon : R,
      Rabs (lat2 - lat1) <= 180 ->
      haversine lat1 lon lat2 lon = 6371 * radians (Rabs (lat2 - lat1)))
  /\ (forall lon1 lon2 : R,
         Rabs (lon2 - lon1) <= 180 ->
         haversine 0 lon1 0 lon2 = 6371 * radians (Rabs (lon2 - lon1))).
Proof.
  split.
  - intros lat1 lat2 lon H. unfold Rabs in *.
    destruct (Rcase_abs (lat2 - lat1)).
    + rewrite haversine_sym, haversine_same_longitude by lra.
      f_equal. f_equal. lra.
    + apply haversine_same_longitude. lra.
  - intros lon1 lon2 H. unfold Rabs in *.
    destruct (Rcase_abs (lon2 - lon1)).
    + rewrite haversine_sym, haversine_equator by lra.
      f_equal. f_equal. lra.
    + apply haversine_equator. lra.
Qed.

Lemma haversine_arc_length_witness :
  haversine 2 7 1 7 = 6371 * radians (Rabs (1 - 2)).
Proof.
  apply (proj1 haversine_arc_length 2 1 7).
  unfold Rabs. destruct (Rcase_abs (1 - 2)); lra.
Defined.

(** ** The mean lies between the extremes *)

Lemma fold_left_fadd_upper (hi : R) (l : list pyfloat) :
  Forall (fun a => fle_num a (Fin hi)) l ->
  forall s, exists t,
    fold_left fadd l (Fin s) = Fin t /\ t <= s + INR (List.length l) * hi.
Proof.
  induction 1 as [| a l Ha _ IH]; intros s.
  - exists s. simpl. split; [reflexivity | lra].
  - destruct a as [x |]; [| contradiction]. simpl in Ha.
    destruct (IH (s + x)) as [t [Ht Hle]].
    exists t. split; [exact Ht |].
    change (List.length (Fin x :: l)) with (S (List.length l)).
    rewrite S_INR. lra.
Qed.

Lemma fold_left_fadd_lower (lo : R) (l : list pyfloat) :
  Forall (fun a => fle_num (Fin lo) a) l ->
  forall s, exists t,
    fold_left fadd l (Fin s) = Fin t /\ s + INR (List.length l) * lo <= t.
Proof.
  induction 1 as [| a l Ha _ IH]; intros s.
  - exists s. simpl. split; [reflexivity | lra].
  - destruct a as [x |]; [| contradiction]. simpl in Ha.
    destruct (IH (s + x)) as [t [Ht Hle]].
    exists t. split; [exact Ht |].
    change (List.length (Fin x :: l)) with (S (List.length l)).
    rewrite S_INR. lra.
Qed.

Lemma length_pos_INR {A : Type} (l : list A) : l <> [] -> 0 < INR (List.length l).
Proof.
  intros H. destruct l as [| a l]; [congruence |].
  change (List.length (a :: l)) with (S (List.length l)).
  rewrite S_INR. pose proof (pos_INR (List.length l)). lra.
Qed.

Lemma np_mean_upper (hi : R) (l : list pyfloat) :
  l <> [] -> Forall (fun a => fle_num a (Fin hi)) l ->
  fle_num (np_mean l) (Fin hi).
Proof.
  intros Hne Hall. pose proof (length_pos_INR l Hne) as Hn.
  destruct (fold_left_fadd_upper hi l Hall 0) as [t [Ht Hle]].
  unfold np_mean. destruct l as [| a l]; [congruence |].
  rewrite Ht. simpl fdivc. simpl fle_num.
  set (n := INR (List.length (a :: l))) in *.
  apply (Rmult_le_reg_r n); [exact Hn |].
  unfold Rdiv. rewrite Rmult_assoc, Rinv_l by lra. lra.
Qed.

Lemma np_mean_lower (lo : R) (l : list pyfloat) :
  l <> [] -> Forall (fun a => fle_num (Fin lo) a) l ->
  fle_num (Fin lo) (np_mean l).
Proof.
  intros Hne Hall. pose proof (length_pos_INR l Hne) as Hn.
  destruct (fold_left_fadd_lower lo l Hall 0) as [t [Ht Hle]].
  unfold np_mean. destruct l as [| a l]; [congruence |].
  rewrite Ht. simpl fdivc. simpl fle_num.
  set (n := INR (List.length (a :: l))) in *.
  apply (Rmult_le_reg_r n); [exact Hn |].
  unfold Rdiv. rewrite Rmult_assoc, Rinv_l by lra. lra.
Qed.

Lemma In_query (index : nat) (own : row) (radius_km : R) (df : DataFrame)
    (s : lot_snapshot) :
  In s (query index (snapshot_of own) radius_km (freeze df)) ->
  exists j r, nth_error df j = Some r
              /\ is_neighbor own index radius_km j r
              /\ s = snapshot_of r.
Proof.
  rewrite query_freeze, in_map_iff. intros [[j r] [Hs Hin]].
  apply filter_In in Hin as [Hin Hsel].
  exists j, r. split; [now apply In_iterrows |].
  split; [now apply selected_is_neighbor | now symmetry].
Qed.

Lemma policy_not_raised (p : R) (nb : list lot_snapshot) :
  5 <= p ->
  (nb <> [] ->
   fle_num (np_mean (map snap_demand_price nb)) (Fin p)
   \/ fle_num (np_mean (map snap_occupancy_rate nb)) (Fin 0.9)) ->
  exists c, competitive_policy (Fin p) nb = Fin c /\ c <= p.
Proof.
  intros Hp Hmean. unfold competitive_policy.
  destruct nb as [| s nb]; [exists p; split; [reflexivity | lra] |].
  cbv zeta.
  assert (Hfirst : fgt (np_mean (map snap_occupancy_rate (s :: nb))) (Fin 0.9)
                   && fgt (np_mean (map snap_demand_price (s :: nb))) (Fin p)
                   = false).
  { destruct (Hmean ltac:(discriminate)) as [H | H].
    - apply andb_false_intro2. unfold fgt, flt.
      destruct (np_mean (map snap_demand_price (s :: nb))) as [m |];
        [| contradiction].
      simpl in H. now apply Rltb_false.
    - apply andb_false_intro1. unfold fgt, flt.
      destruct (np_mean (map snap_occupancy_rate (s :: nb))) as [m |];
        [| contradiction].
      simpl in H. now apply Rltb_false. }
  rewrite Hfirst. destruct (flt _ _).
  - simpl fsub. rewrite pymax_Fin. eexists. split; [reflexivity |].
    unfold Rmax. destruct (Rle_dec (p - 1) 5); lra.
  - exists p. split; [reflexivity | lra].
Qed.

Lemma policy_not_lowered (p : R) (nb : list lot_snapshot) :
  p <= 20 ->
  (nb <> [] -> fle_num (Fin p) (np_mean (map snap_demand_price nb))) ->
  exists c, competitive_policy (Fin p) nb = Fin c /\ p <= c.
Proof.
  intros Hp Hmean. unfold competitive_policy.
  destruct nb as [| s nb]; [exists p; split; [reflexivity | lra] |].
  cbv zeta. specialize (Hmean ltac:(discriminate)).
  destruct (_ && _).
  - simpl fadd. rewrite pymin_Fin. eexists. split; [reflexivity |].
    unfold Rmin. destruct (Rle_dec (p + 1) 20); lra.
  - assert (Hlt : flt (np_mean (map snap_demand_price (s :: nb))) (Fin p) = false).
    { unfold flt.
      destruct (np_mean (map snap_demand_price (s :: nb))) as [m |];
        [| contradiction].
      simpl in Hmean. now apply Rltb_false. }
    rewrite Hlt. exists p. split; [reflexivity | lra].
Qed.

(** X15: a lot that is dearer than each of its neighbours is never made
    dearer, and a lot that is cheaper than each of them never cheaper.  For
    a lot with a demand price [p] in [5, 20]: if every other row within the
    radius has a demand price of [p - 0.005] at most, half a cent below, the
    competitive price is at most [p]; if every one has a demand price of
    [p + 0.005] at least, it is at least [p]. *)
Theorem competitive_price_extreme_lots :
  forall (index : nat) (df : DataFrame) (radius_km : R) (own : row) (p : R),
    capacities_positive df ->
    nth_error df index = Some own ->
    DemandPrice own = Fin p ->
    5 <= p <= 20 ->
    ((forall j r, nth_error df j = Some r ->
                  is_neighbor own index radius_km j r ->
                  fle_num (DemandPrice r) (Fin (p - 0.005))) ->
     exists c, competitive_price index df radius_km = Ok (Fin c) /\ c <= p)
    /\ ((forall j r, nth_error df j = Some r ->
                     is_neighbor own index radius_km j r ->
                     fle_num (Fin (p + 0.005)) (DemandPrice r)) ->
        exists c, competitive_price index df radius_km = Ok (Fin c) /\ p <= c).
Proof.
  intros index df radius_km own p Hcap Hown Hp Hrange.
  rewrite (competitive_price_eq_policy _ _ _ _ Hcap Hown), Hp.
  set (nb := query index (snapshot_of own) radius_km (freeze df)).
  split; intros Hall.
  - destruct (policy_not_raised p nb) as [c [Hc Hle]]; [lra | |].
    + intros Hne. left. apply np_mean_upper.
      * destruct nb; [congruence | discriminate].
      * apply Forall_map, Forall_forall. intros s Hs.
        apply In_query in Hs as [j [r [Hj [Hn ->]]]].
        specialize (Hall j r Hj Hn). cbn [snapshot_of snap_demand_price].
        destruct (DemandPrice r) as [x |]; [| contradiction].
        simpl in *. lra.
    + exists c. now rewrite Hc.
  - destruct (policy_not_lowered p nb) as [c [Hc Hle]]; [lra | |].
    + intros Hne. apply np_mean_lower.
      * destruct nb; [congruence | discriminate].
      * apply Forall_map, Forall_forall. intros s Hs.
        apply In_query in Hs as [j [r [Hj [Hn ->]]]].
        specialize (Hall j r Hj Hn). cbn [snapshot_of snap_demand_price].
        destruct (DemandPrice r) as [x |]; [| contradiction].
        simpl in *. lra.
    + exists c. now rewrite Hc.
Qed.

Lemma near_lot_is_neighbor (p : R) (j : nat) (r : row) :
  nth_error [lot_X; lot_near p] j = Some r ->
  is_neighbor lot_X 0 1 j r ->
  r = lot_near p.
Proof.
  intros Hj [Hne _]. destruct j as [| [| j]]; simpl in Hj.
  - congruence.
  - now injection Hj.
  - destruct j; discriminate.
Qed.

Lemma competitive_price_extreme_lots_witness :
  exists c, competitive_price 0 [lot_X; lot_near 10] 1 = Ok (Fin c) /\ c <= 12.
Proof.
  apply (proj1 (competitive_price_extreme_lots
                  0 [lot_X; lot_near 10] 1 lot_X 12
                  ltac:(repeat constructor) eq_refl eq_refl ltac:(lra))).
  intros j r Hj Hn. rewrite (near_lot_is_neighbor 10 j r Hj Hn). simpl. lra.
Defined.

(** X18: a price is raised only next to crowded lots.  For a lot with a
    demand price in [5, 20], if every other row within the radius is at
    most 89% full ([100 * Occupancy <= 89 * Capacity]), the competitive
    price is at most the own demand price. *)
Theorem competitive_price_raised_only_when_crowded :
  forall (index : nat) (df : DataFrame) (radius_km : R) (own : row) (p : R),
    capacities_positive df ->
    nth_error df index = Some own ->
    DemandPrice own = Fin p ->
    5 <= p <= 20 ->
    (forall j r, nth_error df j = Some r ->
                 is_neighbor own index radius_km j r ->
                 (100 * Occupancy r <= 89 * Capacity r)%Z) ->
    exists c, competitive_price index df radius_km = Ok (Fin c) /\ c <= p.
Proof.
  intros index df radius_km own p Hcap Hown Hp Hrange Hall.
  rewrite (competitive_price_eq_policy _ _ _ _ Hcap Hown), Hp.
  set (nb := query index (snapshot_of own) radius_km (freeze df)).
  destruct (policy_not_raised p nb) as [c [Hc Hle]]; [lra | |].
  - intros Hne. right. apply np_mean_upper.
    + destruct nb; [congruence | discriminate].
    + apply Forall_map, Forall_forall. intros s Hs.
      apply In_query in Hs as [j [r [Hj [Hn ->]]]].
      specialize (Hall j r Hj Hn). simpl.
      assert (Hc : (0 < Capacity r)%Z).
      { unfold capacities_positive in Hcap. rewrite Forall_forall in Hcap.
        apply Hcap. eapply nth_error_In. exact Hj. }
      assert (Hall' : (10 * Occupancy r <= 9 * Capacity r)%Z) by lia.
      apply IZR_le in Hall'. rewrite !mult_IZR in Hall'.
      apply IZR_lt in Hc.
      apply (Rmult_le_reg_r (IZR (Capacity r))); [exact Hc |].
      unfold Rdiv. rewrite Rmult_assoc, Rinv_l by lra. lra.
  - exists c. now rewrite Hc.
Qed.

Lemma competitive_price_raised_only_when_crowded_witness :
  exists c, competitive_price 0 [lot_near 15; lot_X] 1 = Ok (Fin c) /\ c <= 15.
Proof.
  apply (competitive_price_raised_only_when_crowded
           0 [lot_near 15; lot_X] 1 (lot_near 15) 15
           ltac:(repeat constructor) eq_refl eq_refl ltac:(lra)).
  intros j r Hj [Hne _]. destruct j as [| [| j]]; simpl in Hj.
  - congruence.
  - injection Hj as <-. simpl. lia.
  - destruct j; discriminate.
Defined.

(** ** The comprehension as a whole *)

Lemma mapM_Ok_length {A B : Type} (f : A -> result B) (l : list A) :
  forall bs, mapM f l = Ok bs -> List.length bs = List.length l.
Proof.
  induction l as [| a l IH]; intros bs H; simpl in H.
  - injection H as <-. reflexivity.
  - destruct (f a) as [b | e]; [| discriminate]. simpl in H.
    destruct (mapM f l) as [bs' | e]; [| discriminate]. simpl in H.
    injection H as <-. simpl. f_equal. now apply IH.
Qed.

Lemma mapM_Ok_iff {A B : Type} (f : A -> result B) (l : list A) :
  (exists bs, mapM f l = Ok bs) <-> Forall (fun a => exists b, f a = Ok b) l.
Proof.
  induction l as [| a l IH]; simpl.
  - split; [constructor | eexists; reflexivity].
  - split.
    + intros [bs H]. destruct (f a) as [b | e] eqn:Ha; [| discriminate].
      simpl in H. destruct (mapM f l) as [bs' | e]; [| discriminate].
      constructor; [exists b; exact Ha |]. apply IH. eexists. reflexivity.
    + intros H. inversion H as [| ? ? [b Hb] Hl]; subst.
      apply IH in Hl as [bs Hbs]. rewrite Hb, Hbs. eexists. reflexivity.
Qed.

Lemma mapM_Raise {A B : Type} (f : A -> result B) (l : list A) (e : exn) :
  mapM f l = Raise e -> exists a, In a l /\ f a = Raise e.
Proof.
  induction l as [| a l IH]; simpl; [discriminate |].
  destruct (f a) as [b | e'] eqn:Ha; simpl.
  - destruct (mapM f l) as [bs | e'']; simpl; [discriminate |].
    intros H. injection H as ->.
    destruct (IH eq_refl) as [a' [Hin Hr]]. exists a'. auto.
  - intros H. injection H as ->. exists a. auto.
Qed.

Lemma competitive_price_Ok_iff (index : nat) (df : DataFrame) (radius_km : R)
    (own : row) :
  nth_error df index = Some own ->
  (exists c, competitive_price index df radius_km = Ok c)
  <-> forall j r, nth_error df j = Some r ->
                  is_neighbor own index radius_km j r ->
                  Capacity r <> 0%Z.
Proof.
  intros Hown.
  apply (proj2 (competitive_price_raises index df radius_km own Hown)).
Qed.

(** X10: the list comprehension over the whole table returns, with one price
    per row, exactly when no row of capacity 0 has another row within 1.0
    km; otherwise it raises [ZeroDivisionError], and it never raises
    [KeyError].  A lot of capacity 0 standing alone does no harm. *)
Theorem competitive_prices_result :
  forall df : DataFrame,
    ((exists prices, competitive_prices df = Ok prices)
     <-> forall i j ri rj,
           nth_error df i = Some ri -> nth_error df j = Some rj ->
           is_neighbor ri i default_radius_km j rj ->
           Capacity rj <> 0%Z)
    /\ (forall prices, competitive_prices df = Ok prices ->
                       List.length prices = List.length df)
    /\ (forall e, competitive_prices df = Raise e -> e = ZeroDivisionError).
Proof.
  intros df. unfold competitive_prices. split; [| split].
  - rewrite mapM_Ok_iff, Forall_forall. split.
    + intros H i j ri rj Hi Hj Hn.
      assert (Hin : In i (seq 0 (List.length df))).
      { apply in_seq. split; [lia |]. apply nth_error_Some. congruence. }
      apply (proj1 (competitive_price_Ok_iff i df _ ri Hi) (H i Hin) j rj Hj Hn).
    + intros H i Hin. apply in_seq in Hin.
      destruct (nth_error df i) as [ri |] eqn:Hi;
        [| apply nth_error_None in Hi; lia].
      apply (competitive_price_Ok_iff i df _ ri Hi).
      intros j rj Hj Hn. now apply (H i j ri rj).
  - intros prices H. apply mapM_Ok_length in H. now rewrite length_seq in H.
  - intros e H. apply mapM_Raise in H as [i [Hin Hr]]. apply in_seq in Hin.
    destruct e; [reflexivity | |].
    + apply competitive_price_KeyError_lemma in Hr. lia.
    + now apply competitive_price_not_ValueError in Hr.
Qed.

Lemma competitive_prices_result_witness :
  exists prices, competitive_prices [lot_X; lot_far] = Ok prices.
Proof.
  apply (proj2 (proj1 (competitive_prices_result [lot_X; lot_far]))).
  intros i j ri rj _ Hj _. destruct j as [| [| j]]; simpl in Hj.
  - injection Hj as <-. discriminate.
  - injection Hj as <-. discriminate.
  - destruct j; discriminate.
Defined.

Lemma assign_CompetitivePrice_columns :
  forall (df : DataFrame) (prices : list pyfloat),
    List.length prices = List.length df ->
    map CompetitivePrice (assign_CompetitivePrice df prices) = prices
    /\ map blank_CompetitivePrice (assign_CompetitivePrice df prices)
       = map blank_CompetitivePrice df
    /\ List.length (assign_CompetitivePrice df prices) = List.length df.
Proof.
  unfold assign_CompetitivePrice.
  induction df as [| r df IH]; intros [| p prices] Hlen; simpl in Hlen;
    try discriminate.
  - repeat split.
  - destruct (IH prices ltac:(lia)) as [H1 [H2 H3]].
    cbn [combine map fst snd List.length]. rewrite H1, H2, H3.
    repeat split.
Qed.

(** ** The notebook as a whole *)

Lemma mapM_Forall2 {A B : Type} (f : A -> result B) (l : list A) :
  forall bs, mapM f l = Ok bs -> Forall2 (fun a b => f a = Ok b) l bs.
Proof.
  induction l as [| a l IH]; intros bs H; simpl in H.
  - injection H as <-. constructor.
  - destruct (f a) as [b | e] eqn:Ha; [| discriminate]. simpl in H.
    destruct (mapM f l) as [bs' | e]; [| discriminate]. simpl in H.
    injection H as <-. constructor; [exact Ha | now apply IH].
Qed.

Lemma dataset_columns_assign (df : DataFrame) :
  forall prices,
    List.length prices = List.length df ->
    map dataset_columns (assign_CompetitivePrice df prices) = map dataset_columns df.
Proof.
  unfold assign_CompetitivePrice.
  induction df as [| r df IH]; intros [| p prices] Hlen; simpl in Hlen;
    try discriminate; [reflexivity |].
  cbn [combine map fst snd]. rewrite IH by lia. reflexivity.
Qed.

Lemma linear_pass_dataset_columns (batch : DataFrame) :
  forall df2,
    apply_linear_pricing_model (map encode batch) = Ok df2 ->
    map dataset_columns (apply_demand_based_price df2) = map dataset_columns batch.
Proof.
  unfold apply_linear_pricing_model, apply_demand_based_price.
  induction batch as [| b batch IH]; intros df2 H; cbn [map mapM] in H.
  - injection H as <-. reflexivity.
  - destruct (linear_pricing_model _ _ _ _) as [p | e]; [| discriminate].
    cbn [bind] in H.
    destruct (mapM _ (map encode batch)) as [l' | e]; [| discriminate].
    cbn [bind] in H. injection H as <-.
    cbn [map]. rewrite (IH l' eq_refl). reflexivity.
Qed.

Lemma notebook_dataset_columns :
  forall batch out : DataFrame,
    notebook batch = Ok out ->
    map dataset_columns out = map dataset_columns batch
    /\ List.length out = List.length batch.
Proof.
  intros batch out. unfold notebook.
  destruct (apply_linear_pricing_model (map encode batch)) as [df2 | e] eqn:Hlin;
    [| discriminate].
  cbn [bind].
  destruct (competitive_prices (apply_demand_based_price df2))
    as [prices | e] eqn:Hcomp; [| discriminate].
  cbn [bind]. intros H. injection H as <-.
  apply mapM_Ok_length in Hcomp. rewrite length_seq in Hcomp.
  pose proof (linear_pass_dataset_columns batch df2 Hlin) as Hraw.
  split.
  - now rewrite dataset_columns_assign, Hraw.
  - apply (f_equal (@List.length _)) in Hraw. rewrite !length_map in Hraw.
    destruct (assign_CompetitivePrice_columns _ _ Hcomp) as [_ [_ Hl]].
    now rewrite Hl.
Qed.

Lemma assign_normalized_dataset_columns (df : DataFrame) :
  forall (cols : list (pyfloat * pyfloat)) (df' : DataFrame),
    assign_normalized df cols = Ok df' ->
    map dataset_columns df' = map dataset_columns df.
Proof.
  unfold assign_normalized. intros cols df'.
  destruct (Nat.eqb_spec (List.length cols) (List.length df)) as [Hlen | _];
    [| discriminate].
  intros H. injection H as <-. revert cols Hlen.
  induction df as [| r df IH]; intros [| c cols] Hlen; simpl in Hlen;
    try discriminate; [reflexivity |].
  cbn [combine map fst snd]. rewrite IH by lia. reflexivity.
Qed.

(** X17: the run never alters a reading.  Whatever the scaler, whenever the
    run returns, its table has the rows of the batch, in order and in
    number, with every column of the data set unchanged: identifier,
    occupancy, capacity, queue length, vehicle type, traffic condition,
    special-day flag and coordinates. *)
Theorem run_all_cells_keeps_readings :
  forall (fit_transform : scaler) (batch out : DataFrame),
    run_all_cells fit_transform batch = Ok out ->
    map dataset_columns out = map dataset_columns batch
    /\ List.length out = List.length batch.
Proof.
  intros fit_transform batch out. rewrite run_all_cells_notebook.
  destruct (fit_transform _) as [cols | e]; [| discriminate]. cbn [bind].
  destruct (assign_normalized batch cols) as [df |e] eqn:Hn; [| discriminate].
  cbn [bind]. intros Hrun.
  destruct (notebook_dataset_columns df out Hrun) as [Hcols Hlen].
  pose proof (assign_normalized_dataset_columns batch cols df Hn) as Hcols'.
  split; [congruence |].
  apply (f_equal (@List.length _)) in Hcols'. rewrite !length_map in Hcols'.
  congruence.
Qed.

Lemma run_all_cells_keeps_readings_witness :
  exists out,
    run_all_cells min_max_scaler batch_of_five = Ok out
    /\ map dataset_columns out = map dataset_columns batch_of_five
    /\ List.length out = List.length batch_of_five.
Proof.
  assert (Hcap : capacities_positive batch_of_five) by (repeat constructor).
  destruct (min_max_scaler_total batch_of_five ltac:(discriminate) Hcap)
    as [cols [Hfit Hlen]].
  destruct (run_all_cells_rows min_max_scaler batch_of_five cols Hcap Hfit Hlen)
    as [out [Hrun _]].
  exists out. split; [exact Hrun |].
  exact (run_all_cells_keeps_readings min_max_scaler batch_of_five out Hrun).
Defined.

Lemma notebook_eq (batch : DataFrame) :
  capacities_positive batch ->
  notebook batch
  = Ok (assign_CompetitivePrice
          (map priced batch)
          (two_phase default_radius_km (map priced batch))).
Proof.
  intros Hcap. unfold notebook.
  assert (Henc : capacities_positive (map encode batch)).
  { unfold capacities_positive in *. rewrite Forall_map.
    apply (Forall_impl _ (P := fun r => (0 < Capacity r)%Z)); auto. }
  rewrite (apply_linear_pricing_model_total _ Henc). cbn [bind].
  unfold apply_demand_based_price. rewrite !map_map.
  change (map _ batch) with (map priced batch).
  assert (Hcap' : capacities_positive (map priced batch)).
  { unfold capacities_positive in *. rewrite Forall_map.
    apply (Forall_impl _ (P := fun r => (0 < Capacity r)%Z)); auto. }
  unfold competitive_prices.
  rewrite (competitive_prices_two_phase _ default_radius_km Hcap').
  reflexivity.
Qed.

Lemma priced_fixed (c : pyfloat) (r : row) :
  priced (set_CompetitivePrice c (priced r)) = set_CompetitivePrice c (priced r).
Proof. reflexivity. Qed.

Lemma map_priced_assign (l : DataFrame) :
  forall prices,
    map priced (assign_CompetitivePrice (map priced l) prices)
    = assign_CompetitivePrice (map priced l) prices.
Proof.
  unfold assign_CompetitivePrice.
  induction l as [| r l IH]; intros [| p prices]; try reflexivity.
  cbn [map combine fst snd]. rewrite IH. now rewrite priced_fixed.
Qed.

Lemma assign_assign (df : DataFrame) :
  forall prices prices',
    List.length prices = List.length df ->
    assign_CompetitivePrice (assign_CompetitivePrice df prices) prices'
    = assign_CompetitivePrice df prices'.
Proof.
  unfold assign_CompetitivePrice.
  induction df as [| r df IH]; intros [| p prices] [| p' prices'] Hlen;
    simpl in Hlen; try discriminate; try reflexivity.
  cbn [combine map fst snd]. rewrite IH by lia. reflexivity.
Qed.

Lemma freeze_blank (df df' : DataFrame) :
  map blank_CompetitivePrice df' = map blank_CompetitivePrice df ->
  freeze df' = freeze df.
Proof.
  intros H. unfold freeze.
  assert (Hs : forall l, map snapshot_of l
                         = map snapshot_of (map blank_CompetitivePrice l))
    by (intros l; now rewrite map_map).
  now rewrite (Hs df'), (Hs df), H.
Qed.

(** X21: running the notebook's cells again on their own output changes
    nothing: for a batch of positive capacities the notebook returns a
    table on which it returns that same table. *)
Theorem notebook_idempotent :
  forall batch : DataFrame,
    capacities_positive batch ->
    exists out, notebook batch = Ok out /\ notebook out = Ok out.
Proof.
  intros batch Hcap. rewrite (notebook_eq batch Hcap).
  set (P := map priced batch).
  set (T := two_phase default_radius_km P).
  assert (Hlen : List.length T = List.length P)
    by (unfold T; apply two_phase_length).
  destruct (assign_CompetitivePrice_columns P T Hlen) as [_ [Hbl _]].
  eexists. split; [reflexivity |].
  assert (Hcap' : capacities_positive (assign_CompetitivePrice P T)).
  { unfold capacities_positive in *.
    assert (HP : Forall (fun r => (0 < Capacity r)%Z) P).
    { unfold P. rewrite Forall_map.
      apply (Forall_impl _ (P := fun r => (0 < Capacity r)%Z)); auto. }
    assert (Hc : map Capacity (assign_CompetitivePrice P T) = map Capacity P).
    { assert (Hm : forall l, map Capacity l
                            = map Capacity (map blank_CompetitivePrice l))
        by (intros l; now rewrite map_map).
      now rewrite (Hm (assign_CompetitivePrice P T)), (Hm P), Hbl. }
    rewrite <- Forall_map with (f := Capacity) (P := fun c => (0 < c)%Z).
    rewrite Hc. now rewrite Forall_map. }
  rewrite (notebook_eq _ Hcap').
  unfold P at 1 2. rewrite map_priced_assign. fold P.
  assert (HT : two_phase default_radius_km (assign_CompetitivePrice P T) = T).
  { unfold two_phase. cbv zeta. rewrite (freeze_blank _ _ Hbl). reflexivity. }
  rewrite HT. now rewrite assign_assign.
Qed.

Lemma notebook_idempotent_witness :
  exists out, notebook batch_of_five = Ok out /\ notebook out = Ok out.
Proof.
  apply (notebook_idempotent batch_of_five). repeat constructor.
Defined.

Lemma Forall_assign_two_phase (Q : row -> Prop) (g : nat * row -> pyfloat)
    (l : DataFrame) :
  (forall i x, In x l -> Q (set_CompetitivePrice (g (i, x)) x)) ->
  forall k,
    Forall Q (assign_CompetitivePrice
                l (map g (combine (seq k (List.length l)) l))).
Proof.
  unfold assign_CompetitivePrice. intros H.
  induction l as [| x l IH]; intros k; cbn [List.length seq combine map fst snd].
  - constructor.
  - constructor; [apply H; now left |].
    apply IH. intros i y Hy. apply H. now right.
Qed.

Lemma expected_reading_numeric (r : row) :
  expected_reading r -> numeric_features (priced r).
Proof.
  intros (Ho & Hq & Hv & Ht & Hs).
  destruct (vehicle_code_cases _ Hv) as [v [Hv' _]].
  destruct (traffic_code_cases _ Ht) as [t [Ht' _]].
  unfold numeric_features.
  change (NormalizedOccupancyRate (priced r)) with (NormalizedOccupancyRate r).
  change (NormalizedQueueLength (priced r)) with (NormalizedQueueLength r).
  change (TrafficConditionEncoded (priced r))
    with (series_map traffic_condition_codes (TrafficConditionNearby r)).
  change (VehicleTypeEncoded (priced r))
    with (series_map vehicle_type_codes (VehicleType r)).
  change (IsSpecialDay (priced r)) with (IsSpecialDay r).
  rewrite Hv', Ht'.
  destruct (NormalizedOccupancyRate r); [| contradiction].
  destruct (NormalizedQueueLength r); [| contradiction].
  destruct Hs as [-> | ->]; simpl; tauto.
Qed.

(** X22: on a batch of readings as the preprocessing expects them, with
    positive capacities, the notebook returns a table in which every
    demand price is a number between 10 and 15 and every competitive price
    is that demand price, or it plus 1, or it minus 1: no price of the
    table is NaN and none leaves [9, 16]. *)
Theorem notebook_prices_on_expected_batch :
  forall batch : DataFrame,
    capacities_positive batch ->
    Forall expected_reading batch ->
    exists out,
      notebook batch = Ok out
      /\ Forall (fun o =>
                   exists p c,
                     DemandPrice o = Fin p /\ CompetitivePrice o = Fin c
                     /\ 10 <= p <= 15
                     /\ (c = p \/ c = p + 1 \/ c = p - 1)
                     /\ 9 <= c <= 16)
                out.
Proof.
  intros batch Hcap Hexp. rewrite (notebook_eq batch Hcap).
  eexists. split; [reflexivity |].
  rewrite two_phase_rows. unfold iterrows.
  apply Forall_assign_two_phase.
  intros i x Hx. apply in_map_iff in Hx as [r [<- Hr]].
  rewrite Forall_forall in Hexp.
  pose proof (expected_reading_numeric r (Hexp r Hr)) as Hnum.
  destruct (default_demand_price_range (priced r) Hnum) as [Hrange _].
  assert (Hd : DemandPrice (priced r)
               = demand_based_price (priced r) default_base_price default_lambd)
    by reflexivity.
  cbn [fst snd].
  change (DemandPrice (set_CompetitivePrice _ (priced r)))
    with (DemandPrice (priced r)).
  change (CompetitivePrice (set_CompetitivePrice ?c (priced r))) with c.
  rewrite Hd in *.
  destruct (demand_based_price (priced r) default_base_price default_lambd)
    as [p |]; [| contradiction].
  simpl in Hrange.
  match goal with
  | |- context [competitive_policy (Fin p) ?nb] =>
      destruct (competitive_caps_not_binding p nb Hrange) as [Hc | [Hc | Hc]];
        rewrite Hc
  end.
  - exists p, p. repeat split; auto; lra.
  - exists p, (p + 1). repeat split; auto; lra.
  - exists p, (p - 1). repeat split; auto; lra.
Qed.

Lemma notebook_prices_on_expected_batch_witness :
  exists out,
    notebook [scenario_reading; reading_at "W" 1 "bike"] = Ok out
    /\ Forall (fun o =>
                 exists p c,
                   DemandPrice o = Fin p /\ CompetitivePrice o = Fin c
                   /\ 10 <= p <= 15
                   /\ (c = p \/ c = p + 1 \/ c = p - 1)
                   /\ 9 <= c <= 16)
              out.
Proof.
  apply (notebook_prices_on_expected_batch
           [scenario_reading; reading_at "W" 1 "bike"]).
  - repeat constructor.
  - repeat constructor; simpl; lra.
Defined.

(** ** The chart shows the first lot of the table *)

Lemma unique_In (l : list string) (x : string) : In x (unique l) <-> In x l.
Proof.
  induction l as [| y l IH]; simpl; [reflexivity |].
  rewrite filter_In, IH, negb_true_iff. split.
  - intros [H | [H _]]; auto.
  - intros [H | H]; [now left |].
    destruct (String.eqb_spec y x) as [Heq | Hne]; [now left | right; auto].
Qed.

Lemma unique_NoDup (l : list string) : NoDup (unique l).
Proof.
  induction l as [| y l IH]; simpl; constructor.
  - rewrite filter_In, negb_true_iff, String.eqb_refl. intros [_ H].
    discriminate.
  - now apply NoDup_filter.
Qed.

(** X19: the chart is drawn from the rows of the lot of the first reading.
    On an empty table [unique()[0]] has no item; otherwise it is the first
    row's identifier, the selected rows are exactly the rows with that
    identifier, in table order and starting with the first row, and
    [unique] lists every identifier of the table once. *)
Theorem chart_rows_are_first_lot :
  first_lot_id [] = None
  /\ (forall (r : row) (df : DataFrame),
         first_lot_id (r :: df) = Some (SystemCodeNumber r)
         /\ lot_rows (SystemCodeNumber r) (r :: df)
            = r :: lot_rows (SystemCodeNumber r) df)
  /\ (forall (lot_id : string) (df : DataFrame) (x : row),
         In x (lot_rows lot_id df) <-> In x df /\ SystemCodeNumber x = lot_id)
  /\ (forall df : DataFrame,
         NoDup (unique (map SystemCodeNumber df))
         /\ forall id, In id (unique (map SystemCodeNumber df))
                       <-> exists x, In x df /\ SystemCodeNumber x = id).
Proof.
  split; [reflexivity |]. split; [| split].
  - intros r df. split; [reflexivity |].
    unfold lot_rows. cbn [filter]. now rewrite String.eqb_refl.
  - intros lot_id df x. unfold lot_rows.
    rewrite filter_In. split; intros [H1 H2]; split; auto.
    + now apply String.eqb_eq.
    + now apply String.eqb_eq.
  - intros df. split; [apply unique_NoDup |].
    intros id. rewrite unique_In, in_map_iff. split.
    + intros [x [H1 H2]]. exists x. auto.
    + intros [x [H1 H2]]. exists x. auto.
Qed.

(** * The pricing functions in binary64 *)

(** ** Binary64: rounding to two decimals *)

Lemma f64_round_half_even_div_nearest (q d : Z) :
  (0 < d)%Z ->
  let n := F64.round_half_even_div q d in
  (2 * Z.abs (q - n * d) <= d)%Z
  /\ ((2 * Z.abs (q - n * d) = d)%Z -> Z.even n = true).
Proof.
  intros Hd. unfold F64.round_half_even_div.
  pose proof (Z.div_mod q d ltac:(lia)) as Hq.
  pose proof (Z.mod_pos_bound q d Hd) as Hr.
  set (n0 := (q / d)%Z) in *. set (r := (q mod d)%Z) in *.
  destruct (Z.compare_spec (2 * r) d) as [He | Hl | Hg]; cbv zeta.
  - destruct (Z.even n0) eqn:Hev.
    + split; [nia | intros _; exact Hev].
    + split; [nia |]. intros _. rewrite Z.even_add, Hev. reflexivity.
  - split; [nia | nia].
  - split; [nia | nia].
Qed.

Lemma f64_nearest_hundredth_unique (s : bool) (m : positive) (e n n' : Z) :
  F64.nearest_hundredth s m e n -> F64.nearest_hundredth s m e n' -> n = n'.
Proof.
  unfold F64.nearest_hundredth. cbv zeta.
  destruct e as [| p | k].
  - intros -> ->. reflexivity.
  - intros -> ->. reflexivity.
  - set (v := ((if s then -1 else 1) * Z.pos m * 100)%Z).
    assert (Hd : (0 < Z.pow_pos 2 k)%Z).
    { rewrite Z.pow_pos_fold. apply Z.pow_pos_nonneg; lia. }
    set (d := Z.pow_pos 2 k) in *.
    intros [H1 E1] [H2 E2].
    assert (Hc : (n' = n \/ n' = n + 1 \/ n = n' + 1)%Z) by nia.
    destruct Hc as [Hc | [Hc | Hc]]; [now symmetry | |].
    + exfalso. subst n'.
      assert (T1 : (2 * Z.abs (v - n * d) = d)%Z) by nia.
      assert (T2 : (2 * Z.abs (v - (n + 1) * d) = d)%Z) by nia.
      specialize (E1 T1). specialize (E2 T2).
      rewrite Z.even_add, E1 in E2. discriminate.
    + exfalso. subst n.
      assert (T1 : (2 * Z.abs (v - n' * d) = d)%Z) by nia.
      assert (T2 : (2 * Z.abs (v - (n' + 1) * d) = d)%Z) by nia.
      specialize (E1 T2). specialize (E2 T1).
      rewrite Z.even_add, E2 in E1. discriminate.
Qed.

Lemma f64_hundredths_nearest (s : bool) (m : positive) (e : Z) :
  F64.nearest_hundredth s m e
    (if s then (- F64.hundredths m e)%Z else F64.hundredths m e).
Proof.
  unfold F64.nearest_hundredth, F64.hundredths. cbv zeta.
  destruct e as [| p | k].
  - destruct s; lia.
  - destruct s; lia.
  - assert (Hd : (0 < Z.pow_pos 2 k)%Z).
    { rewrite Z.pow_pos_fold. apply Z.pow_pos_nonneg; lia. }
    destruct (f64_round_half_even_div_nearest (Z.pos m * 100) _ Hd) as [H1 H2].
    set (d := Z.pow_pos 2 k) in *.
    set (n := F64.round_half_even_div (Z.pos m * 100) d) in *.
    destruct s.
    + split.
      * replace (-1 * Z.pos m * 100 - (- n) * d)%Z
          with (- (Z.pos m * 100 - n * d))%Z by ring.
        rewrite Z.abs_opp. exact H1.
      * replace (-1 * Z.pos m * 100 - (- n) * d)%Z
          with (- (Z.pos m * 100 - n * d))%Z by ring.
        rewrite Z.abs_opp, Z.even_opp. exact H2.
    + split.
      * replace (1 * Z.pos m * 100)%Z with (Z.pos m * 100)%Z by ring. exact H1.
      * replace (1 * Z.pos m * 100)%Z with (Z.pos m * 100)%Z by ring. exact H2.
Qed.

Lemma f64_round2_finite (x : float) (s : bool) (m : positive) (e : Z) :
  Prim2SF x = S754_finite s m e ->
  let n := if s then (- F64.hundredths m e)%Z else F64.hundredths m e in
  F64.round2 x = match n with
                 | Z0 => if s then (-0)%float else 0%float
                 | _ => F64.div_Z n 100
                 end.
Proof.
  intros H. unfold F64.round2. rewrite H. cbv zeta.
  destruct (F64.hundredths m e) eqn:Hn; destruct s; reflexivity.
Qed.

(** ** Binary64: linear pricing *)

(** C6: for every occupancy and every capacity > 0 the linear price is
    [base_price + alpha * (occupancy / capacity)], computed in binary64 and
    rounded to two decimals: the quotient is the exact quotient rounded
    once, and the result is the float nearest to [n / 100], where [n / 100]
    is the two-digit decimal nearest to the exact value of the sum (ties to
    the even digit), and there is exactly one such [n].  The defaults are
    10.0 and 5.0; occupancy 50 of capacity 100 costs 12.50, 1 of 200 costs
    10.03 (the sum is the float just above 10.025), 1 of 3 costs 11.67; and
    nothing clamps the result: 300 of 100 costs 25.0, 1000000 of 1 costs
    5000010.0, and -400 of 100 costs -10.0. *)
Theorem linear_pricing_model_binary64 :
  (forall (occupancy capacity : Z) (base_price alpha : float),
      (0 < capacity)%Z ->
      F64.linear_pricing_model occupancy capacity base_price alpha
      = Ok (F64.round2 (base_price + alpha * F64.div_Z occupancy capacity)%float))
  /\ (forall (x : float) (s : bool) (m : positive) (e : Z),
         Prim2SF x = S754_finite s m e ->
         exists n : Z,
           F64.nearest_hundredth s m e n
           /\ (forall n' : Z, F64.nearest_hundredth s m e n' -> n' = n)
           /\ F64.round2 x = match n with
                             | Z0 => if s then (-0)%float else 0%float
                             | _ => F64.div_Z n 100
                             end)
  /\ F64.default_base_price = 10.0%float
  /\ F64.default_alpha = 5.0%float
  /\ F64.linear_pricing_model 50 100 F64.default_base_price F64.default_alpha
     = Ok 12.5%float
  /\ F64.linear_pricing_model 1 200 F64.default_base_price F64.default_alpha
     = Ok 10.03%float
  /\ F64.linear_pricing_model 1 3 F64.default_base_price F64.default_alpha
     = Ok 11.67%float
  /\ F64.linear_pricing_model 300 100 F64.default_base_price F64.default_alpha
     = Ok 25.0%float
  /\ F64.linear_pricing_model 1000000 1 F64.default_base_price F64.default_alpha
     = Ok 5000010.0%float
  /\ F64.linear_pricing_model (-400) 100 F64.default_base_price F64.default_alpha
     = Ok (-10.0)%float.
Proof.
  split; [| split].
  - intros occupancy capacity base_price alpha Hc.
    unfold F64.linear_pricing_model, F64.truediv.
    destruct (Z.eqb_spec capacity 0) as [Hz | _]; [lia | reflexivity].
  - intros x s m e Hx.
    exists (if s then (- F64.hundredths m e)%Z else F64.hundredths m e).
    split; [apply f64_hundredths_nearest | split].
    + intros n' Hn'.
      apply (f64_nearest_hundredth_unique s m e); [exact Hn' |].
      apply f64_hundredths_nearest.
    + now apply f64_round2_finite.
  - repeat split; vm_compute; reflexivity.
Qed.

Lemma linear_pricing_model_binary64_witness :
  F64.linear_pricing_model 1 200 10.0%float 5.0%float
  = Ok (F64.round2 (10.0 + 5.0 * F64.div_Z 1 200)%float)
  /\ exists n : Z,
       F64.nearest_hundredth false 5643573283048653%positive (-49) n
       /\ (forall n' : Z,
              F64.nearest_hundredth false 5643573283048653%positive (-49) n' -> n' = n)
       /\ F64.round2 10.025000000000000355%float
          = match n with
            | Z0 => 0%float
            | _ => F64.div_Z n 100
            end.
Proof.
  split.
  - apply (proj1 linear_pricing_model_binary64). lia.
  - apply (proj1 (proj2 linear_pricing_model_binary64)
             10.025000000000000355%float false 5643573283048653%positive (-49)%Z).
    vm_compute. reflexivity.
Defined.

(** ** Binary64: demand-based pricing *)



(** ** Binary64: competitive pricing *)





Arguments F64.haversine : simpl never.



(** ** Binary64: the haversine distance near the antipodes *)

(** C9: between (57.7, 0) and (-57.6999999, 180) the argument of the square
    root is 1.0000000000000004, its root 1.0000000000000002 is outside the
    domain of [arcsin], and the distance is NaN in both directions: it is
    not equal to itself, so [distance(a, b) == distance(b, a)] is false, and
    it is not [<= radius_km], so neither point is a neighbour of the
    other. *)
Theorem haversine_nan_near_antipodes :
  forall np : F64.numpy,
    F64.near_antipodes np ->
    F64.haversine np 57.7 0 (-57.6999999) 180 = nan
    /\ F64.haversine np (-57.6999999) 180 57.7 0 = nan
    /\ (F64.haversine np 57.7 0 (-57.6999999) 180
        =? F64.haversine np (-57.6999999) 180 57.7 0)%float = false
    /\ (F64.haversine np 57.7 0 (-57.6999999) 180
        <=? F64.default_radius_km)%float = false.
Proof.
  intros np (S1 & S2 & S3 & S4 & C1 & C2 & P1 & P2 & P3 & P4 & A).
  assert (E1 : F64.haversine np 57.7 0 (-57.6999999) 180 = nan).
  { unfold F64.haversine. cbv zeta.
    replace (F64.radians (-57.6999999 - 57.7) / 2)%float
      with (-1.0070549775280637)%float by (vm_compute; reflexivity).
    replace (F64.radians (180 - 0) / 2)%float
      with (1.5707963267948966)%float by (vm_compute; reflexivity).
    replace (F64.radians 57.7) with (1.007054978400728)%float
      by (vm_compute; reflexivity).
    replace (F64.radians (-57.6999999)) with (-1.007054976655399)%float
      by (vm_compute; reflexivity).
    rewrite S1, S3, C1, C2, P1, P3.
    replace (PrimFloat.sqrt _) with (1.0000000000000002)%float
      by (vm_compute; reflexivity).
    rewrite A. vm_compute. reflexivity. }
  assert (E2 : F64.haversine np (-57.6999999) 180 57.7 0 = nan).
  { unfold F64.haversine. cbv zeta.
    replace (F64.radians (57.7 - -57.6999999) / 2)%float
      with (1.0070549775280637)%float by (vm_compute; reflexivity).
    replace (F64.radians (0 - 180) / 2)%float
      with (-1.5707963267948966)%float by (vm_compute; reflexivity).
    replace (F64.radians 57.7) with (1.007054978400728)%float
      by (vm_compute; reflexivity).
    replace (F64.radians (-57.6999999)) with (-1.007054976655399)%float
      by (vm_compute; reflexivity).
    rewrite S2, S4, C1, C2, P2, P4.
    replace (PrimFloat.sqrt _) with (1.0000000000000002)%float
      by (vm_compute; reflexivity).
    rewrite A. vm_compute. reflexivity. }
  rewrite E1, E2. repeat split; vm_compute; reflexivity.
Qed.

Lemma haversine_nan_near_antipodes_witness :
  F64.haversine F64.table_numpy 57.7 0 (-57.6999999) 180 = nan
  /\ F64.haversine F64.table_numpy (-57.6999999) 180 57.7 0 = nan
  /\ (F64.haversine F64.table_numpy 57.7 0 (-57.6999999) 180
      =? F64.haversine F64.table_numpy (-57.6999999) 180 57.7 0)%float = false
  /\ (F64.haversine F64.table_numpy 57.7 0 (-57.6999999) 180
      <=? F64.default_radius_km)%float = false.
Proof.
  apply (haversine_nan_near_antipodes F64.table_numpy).
  repeat split; vm_compute; reflexivity.
Defined.

